(** * The torus-knot OBJ generator of [scripts/generate-torus-knot.py]
    and the calibration report of [analyze_calibration.py]

    The generator is embedded twice.

    In exact real arithmetic.  The first embedding reads Python's [float]s
    as the real numbers [R] of the Standard Library: [math.cos], [math.sin],
    [math.pi] and [math.sqrt] are [cos], [sin], [PI] and [sqrt].  It is the
    formula the script implements, without rounding, overflow or NaN.  It
    carries the properties of the faces and of the indices, which are
    integer arithmetic, the position formula, and the two closure
    properties, which are stated of exact real arithmetic.

    On binary64.  The second embedding, the module [Binary64], takes the
    numbers as Python has them: [int]s are [Z], [float]s are the binary64
    values of the kernel, every operation rounds as the C operation CPython
    calls, and what raises in Python raises here ([OverflowError],
    [ValueError], [ZeroDivisionError], [OSError]).  The serializer, the file
    and the console are embedded there.  Every property of errors, of
    completed runs, of float values and of the bytes written is stated of
    this embedding.

    Failure.  The operations that can raise return a [result], and the code
    that calls them is written in the error monad of [result]. *)

From Stdlib Require Import Reals Lra Lia ZArith String Ascii List.
From Stdlib Require Floats.
From stdpp Require Import base option list gmap strings pretty.

(** ** Exceptions and the error monad *)

Inductive exn : Type :=
| ZeroDivisionError
| ValueError
| OSError
| OverflowError.

Inductive result (A : Type) : Type :=
| Ok (a : A)
| Raise (e : exn).

Arguments Ok {A} a.
Arguments Raise {A} e.

Definition bind {A B : Type} (m : result A) (k : A -> result B) : result B :=
  match m with
  | Ok a => k a
  | Raise e => Raise e
  end.

Notation "'let*' x ':=' m 'in' k" := (bind m (fun x => k))
  (at level 10, x pattern, m at level 100, k at level 200).

(** [for x in xs: s = body(x, s)], where the body may raise: the loop stops at
    the first exception. *)
Fixpoint for_each {A S : Type} (xs : list A) (body : A -> S -> result S) (s : S)
  : result S :=
  match xs with
  | [] => Ok s
  | x :: xs' => let* s' := body x s in for_each xs' body s'
  end.

(** * The generator in exact real arithmetic *)

(** ** Python primitives *)

(** [range(n)]: [0, 1, ..., n-1], empty when [n <= 0]. *)
Definition range (n : Z) : list Z := map Z.of_nat (seq 0 (Z.to_nat n)).

(** [a / b] on two [int]s (true division). *)
Definition int_truediv (a b : Z) : result R :=
  if Z.eq_dec b 0%Z then Raise ZeroDivisionError else Ok (IZR a / IZR b)%R.

(** [a / b] on two [float]s. *)
Definition float_truediv (a b : R) : result R :=
  if Req_dec_T b 0%R then Raise ZeroDivisionError else Ok (a / b)%R.

(** [math.sqrt(x)]. *)
Definition math_sqrt (x : R) : result R :=
  if Rlt_dec x 0%R then Raise ValueError else Ok (sqrt x).

(** ** Vectors, faces and meshes *)

(** A Python 3-tuple of floats; [item0 v] is [v[0]]. *)
Definition Vec3 : Type := (R * R * R)%type.

Definition item0 (v : Vec3) : R := fst (fst v).
Definition item1 (v : Vec3) : R := snd (fst v).
Definition item2 (v : Vec3) : R := snd v.

(** A quad face: four one-based vertex indices. *)
Definition Face : Type := (Z * Z * Z * Z)%type.

(** The three lists the script accumulates. *)
Record Mesh : Type := mkMesh {
  vertices : list Vec3;
  normals : list Vec3;
  faces : list Face
}.

Section Generator.

Open Scope R_scope.

(** The parameters of [generate_torus_knot_obj] the nested functions close
    over. *)
Variables (p q path_segments tube_segments : Z).
Variables (torus_radius tube_radius : R).

(** [calculate_position(t)], lines 21-38.  The local [R] of the source is
    [R_] here ([R] is the type of reals). *)
Definition calculate_position (t : R) : Vec3 :=
  let pt := IZR p * t in
  let qt := IZR q * t in
  let cos_pt := cos pt in
  let sin_pt := sin pt in
  let cos_qt := cos qt in
  let sin_qt := sin qt in
  let R_ := torus_radius in
  let r := tube_radius * 2 in
  let x := cos_pt * (R_ + r * cos_qt) in
  let y := sin_pt * (R_ + r * cos_qt) in
  let z := r * sin_qt in
  (x, y, z).

(** [calculate_tangent(t)], lines 40-55. *)
Definition calculate_tangent (t : R) : result Vec3 :=
  let pt := IZR p * t in
  let qt := IZR q * t in
  let dx_dt := IZR (- p) * sin pt * (torus_radius + tube_radius * 2 * cos qt) -
               IZR q * tube_radius * 2 * cos pt * sin qt in
  let dy_dt := IZR p * cos pt * (torus_radius + tube_radius * 2 * cos qt) -
               IZR q * tube_radius * 2 * sin pt * sin qt in
  let dz_dt := IZR q * tube_radius * 2 * cos qt in
  let* length := math_sqrt (dx_dt ^ 2 + dy_dt ^ 2 + dz_dt ^ 2) in
  if Rlt_dec 0 length then
    let* x := float_truediv dx_dt length in
    let* y := float_truediv dy_dt length in
    let* z := float_truediv dz_dt length in
    Ok (x, y, z)
  else Ok (1, 0, 0).

(** [cross_product(a, b)], lines 57-63. *)
Definition cross_product (a b : Vec3) : Vec3 :=
  (item1 a * item2 b - item2 a * item1 b,
   item2 a * item0 b - item0 a * item2 b,
   item0 a * item1 b - item1 a * item0 b).

(** [normalize(v)], lines 65-70. *)
Definition normalize (v : Vec3) : result Vec3 :=
  let* length := math_sqrt (item0 v ^ 2 + item1 v ^ 2 + item2 v ^ 2) in
  if Rlt_dec 0 length then
    let* x := float_truediv (item0 v) length in
    let* y := float_truediv (item1 v) length in
    let* z := float_truediv (item2 v) length in
    Ok (x, y, z)
  else Ok (0, 0, 1).

(** The frame construction of lines 79-86: the reference [up] vector and the
    two normals of the tube at a path sample. *)
Definition frame (tangent : Vec3) : result (Vec3 * Vec3) :=
  let up := if Rlt_dec (Rabs (item2 tangent)) 0.9 then (0, 0, 1) else (0, 1, 0) in
  let* normal1 := normalize (cross_product tangent up) in
  let* normal2 := normalize (cross_product tangent normal1) in
  Ok (normal1, normal2).

(** The body of the inner loop, lines 89-105: one vertex and one normal are
    appended. *)
Definition tube_body (pos normal1 normal2 : Vec3) (j : Z)
    (st : list Vec3 * list Vec3) : result (list Vec3 * list Vec3) :=
  let* f := int_truediv j tube_segments in
  let v := f * 2 * PI in
  let cos_v := cos v in
  let sin_v := sin v in
  let nx := item0 normal1 * cos_v + item0 normal2 * sin_v in
  let ny := item1 normal1 * cos_v + item1 normal2 * sin_v in
  let nz := item2 normal1 * cos_v + item2 normal2 * sin_v in
  let vx := item0 pos + tube_radius * nx in
  let vy := item1 pos + tube_radius * ny in
  let vz := item2 pos + tube_radius * nz in
  Ok (fst st ++ [(vx, vy, vz)], snd st ++ [(nx, ny, nz)]).

(** The body of the outer loop, lines 74-105: one ring. *)
Definition ring_body (i : Z) (st : list Vec3 * list Vec3)
  : result (list Vec3 * list Vec3) :=
  let* f := int_truediv i path_segments in
  let u := f * 2 * PI in
  let pos := calculate_position u in
  let* tangent := calculate_tangent u in
  let* (normal1, normal2) := frame tangent in
  for_each (range (tube_segments + 1)) (tube_body pos normal1 normal2) st.

(** The body of the face loop, lines 110-116. *)
Definition face_body (i j : Z) (fs : list Face) : list Face :=
  let v1 := (i * (tube_segments + 1) + j)%Z in
  let v2 := (v1 + 1)%Z in
  let v3 := (v1 + (tube_segments + 1))%Z in
  let v4 := (v3 + 1)%Z in
  fs ++ [((v1 + 1)%Z, (v2 + 1)%Z, (v4 + 1)%Z, (v3 + 1)%Z)].

(** Lines 17-19 and 72-116: the three lists, filled by the two loop nests. *)
Definition build_mesh : result Mesh :=
  let* vn := for_each (range (path_segments + 1)) ring_body ([], []) in
  let fs := fold_left
              (fun fs i => fold_left (fun fs j => face_body i j fs)
                             (range tube_segments) fs)
              (range path_segments) [] in
  Ok (mkMesh (fst vn) (snd vn) fs).

End Generator.

(** ** The file system and the console *)

(** The part of the environment the script touches: the files, the paths
    that cannot be opened for writing, and what was printed. *)
Record World : Type := mkWorld {
  files : gmap string string;
  denied : gset string;
  stdout : list string
}.

Definition newline : string := String (ascii_of_nat 10) EmptyString.

(** [open(path, 'w')]: the file is created or truncated. *)
Definition open_w (path : string) (w : World) : result World :=
  if decide (path ∈ denied w) then Raise OSError
  else Ok (mkWorld (<[path := EmptyString]> (files w)) (denied w) (stdout w)).

(** [print(s)]. *)
Definition print (s : string) (w : World) : World :=
  mkWorld (files w) (denied w) (stdout w ++ [s]).

(** ** Vocabulary of the properties *)

(** The configurations the specification calls valid. *)
Definition valid_configuration (p q path_segments tube_segments : Z) : Prop :=
  (1 <= p /\ 1 <= q /\ 3 <= path_segments /\ 3 <= tube_segments)%Z.

#[global] Instance valid_configuration_dec p q path_segments tube_segments :
  Decision (valid_configuration p q path_segments tube_segments).
Proof. unfold valid_configuration. apply _. Defined.

(** The position of vertex [j] of ring [i] in the lists of the mesh
    (ring-major order, zero-based). *)
Definition vertex_index (tube_segments i j : Z) : nat :=
  Z.to_nat (i * (tube_segments + 1) + j).

(** The position of the face of cell [(i, j)] in the list of faces. *)
Definition face_index (tube_segments i j : Z) : nat :=
  Z.to_nat (i * tube_segments + j).

Definition norm (v : Vec3) : R :=
  sqrt (item0 v ^ 2 + item1 v ^ 2 + item2 v ^ 2)%R.

(** The derivative with respect to [t] of the three coordinates of
    [calculate_position], as [calculate_tangent] writes it
    ([dx_dt], [dy_dt], [dz_dt]). *)
Definition derivative (p q : Z) (torus_radius tube_radius t : R) : Vec3 :=
  let pt := (IZR p * t)%R in
  let qt := (IZR q * t)%R in
  (IZR (- p) * sin pt * (torus_radius + tube_radius * 2 * cos qt) -
     IZR q * tube_radius * 2 * cos pt * sin qt,
   IZR p * cos pt * (torus_radius + tube_radius * 2 * cos qt) -
     IZR q * tube_radius * 2 * sin pt * sin qt,
   IZR q * tube_radius * 2 * cos qt)%R.

(** [v] divided by its length, or [fallback] when the length is not
    positive: the value of [normalize] and of [calculate_tangent]. *)
Definition unit_or (fallback v : Vec3) : Vec3 :=
  if Rlt_dec 0 (norm v)
  then (item0 v / norm v, item1 v / norm v, item2 v / norm v)%R
  else fallback.

(** The value of [frame]. *)
Definition frame_of (tangent : Vec3) : Vec3 * Vec3 :=
  let up := if Rlt_dec (Rabs (item2 tangent)) 0.9
            then (0, 0, 1)%R else (0, 1, 0)%R in
  let normal1 := unit_or (0, 0, 1)%R (cross_product tangent up) in
  (normal1, unit_or (0, 0, 1)%R (cross_product tangent normal1)).

(** The path parameter [u] of ring [i] and the profile angle [v] of vertex
    [j]. *)
Definition angle (i segments : Z) : R := (IZR i / IZR segments * 2 * PI)%R.

(** The normal and the vertex the loops append for ring [i], profile [j]. *)
Definition ring_normal (p q path_segments tube_segments : Z)
    (torus_radius tube_radius : R) (i j : Z) : Vec3 :=
  let u := angle i path_segments in
  let nn := frame_of (unit_or (1, 0, 0)%R (derivative p q torus_radius tube_radius u)) in
  let v := angle j tube_segments in
  (item0 (fst nn) * cos v + item0 (snd nn) * sin v,
   item1 (fst nn) * cos v + item1 (snd nn) * sin v,
   item2 (fst nn) * cos v + item2 (snd nn) * sin v)%R.

Definition ring_vertex (p q path_segments tube_segments : Z)
    (torus_radius tube_radius : R) (i j : Z) : Vec3 :=
  let pos := calculate_position p q torus_radius tube_radius (angle i path_segments) in
  let n := ring_normal p q path_segments tube_segments torus_radius tube_radius i j in
  (item0 pos + tube_radius * item0 n,
   item1 pos + tube_radius * item1 n,
   item2 pos + tube_radius * item2 n)%R.

(** The face of cell [(i, j)]. *)
Definition quad (tube_segments i j : Z) : Face :=
  let v1 := (i * (tube_segments + 1) + j)%Z in
  let v2 := (v1 + 1)%Z in
  let v3 := (v1 + (tube_segments + 1))%Z in
  let v4 := (v3 + 1)%Z in
  ((v1 + 1)%Z, (v2 + 1)%Z, (v4 + 1)%Z, (v3 + 1)%Z).

(** A list of [rows] rows of [cols] entries each, in row-major order: what
    two nested loops over [range rows] and [range cols] append. *)
Definition grid {A : Type} (g : Z -> Z -> A) (rows cols : Z) : list A :=
  flat_map (fun i => map (g i) (range cols)) (range rows).

(** An empty environment. *)
Definition sample_world : World := mkWorld ∅ ∅ [].

(** An environment in which the default destination cannot be opened. *)
Definition locked_world : World := mkWorld ∅ {["torus-knot.obj"]} [].

(** The four indices of a face, in the order they are written. *)
Definition corners (f : Face) : list Z :=
  let '(a, b, c, d) := f in [a; b; c; d].

(** The four directed edges of a face, following the order of its indices. *)
Definition edges (f : Face) : list (Z * Z) :=
  let '(a, b, c, d) := f in [(a, b); (b, c); (c, d); (d, a)].

(** * The calibration report of [analyze_calibration.py]

    The script is straight-line code at module level.  It reads the
    environment through [os.path.exists] and [os.path.getsize] and prints;
    the files of the [World] are what it can see, the console is where it
    prints. *)

(** [os.path.exists(path)]: whether the environment has a file at [path]. *)
Definition os_path_exists (path : string) (w : World) : bool :=
  bool_decide (is_Some (files w !! path)).

(** [os.path.getsize(path)]: the size in bytes of the file at [path].  The
    script asks only for files it has just seen to exist. *)
Definition os_path_getsize (path : string) (w : World) : Z :=
  Z.of_nat (String.length (default EmptyString (files w !! path))).

(** [s * n] on a string. *)
Fixpoint str_mul (s : string) (n : nat) : string :=
  match n with
  | O => EmptyString
  | S n' => s +:+ str_mul s n'
  end.

(** The format specification [:<width>s]: [s], padded on the right with
    spaces to [width] characters. *)
Definition format_s (width : nat) (s : string) : string :=
  s +:+ str_mul " " (width - String.length s).

(** Line 10. *)
Definition calibration_dir : string :=
  "C:\zzz\emotive\emotive-engine\examples\calibration-screenshots".

(** Lines 12-96.  A [dict] literal with distinct keys, iterated in the order
    it is written. *)
Definition categories : list (string * list (string * string)) :=
  [ ("01-ROUGHNESS",
     [ ("mirror", "0% - Perfect mirror reflection");
       ("glossy", "15% - Glossy reflection");
       ("satin", "35% - Satin finish");
       ("balanced", "50% - Balanced");
       ("matte", "75% - Matte");
       ("pure-matte", "100% - Pure diffuse") ]);
    ("02-FRESNEL",
     [ ("front", "Front view - minimal Fresnel");
       ("rim", "Rim view - strong Fresnel edges");
       ("grazing", "Grazing angle - maximum Fresnel") ]);
    ("03-AMBIENT-OCCLUSION",
     [ ("none", "100% - No darkening");
       ("light", "75% - Light shadows");
       ("medium", "50% - Medium shadows");
       ("heavy", "25% - Heavy shadows");
       ("maximum", "0% - Black crevices") ]);
    ("04-SUBSURFACE-SCATTERING",
     [ ("none", "0% - Opaque surface");
       ("light", "30% - Light translucency");
       ("moderate", "60% - Moderate penetration");
       ("strong", "100% - Strong glow") ]);
    ("05-METALLIC",
     [ ("dielectric", "0% - Pure dielectric");
       ("semi-metal-25", "25% - Slightly metallic");
       ("semi-metal-50", "50% - Half metal");
       ("semi-metal-75", "75% - Mostly metal");
       ("pure-metal", "100% - Pure metal");
       ("metal-rough", "100% metal + 60% roughness");
       ("metal-mirror-front", "Metal mirror - FRONT");
       ("metal-mirror-rim", "Metal mirror - RIM");
       ("metal-mirror-grazing", "Metal mirror - GRAZING") ]);
    ("06-ANISOTROPY",
     [ ("isotropic", "0 - Isotropic");
       ("light-horizontal", "30% - Light horizontal");
       ("moderate-horizontal", "60% - Moderate horizontal");
       ("strong-horizontal", "100% - Dramatic horizontal");
       ("light-vertical", "-30% - Light vertical");
       ("strong-vertical", "-100% - Dramatic vertical");
       ("aniso-front", "100% horizontal - FRONT");
       ("aniso-rim", "100% horizontal - RIM");
       ("aniso-grazing", "100% horizontal - GRAZING");
       ("aniso-topdown", "100% horizontal - TOP-DOWN") ]);
    ("07-IRIDESCENCE",
     [ ("none", "0% - Standard surface");
       ("subtle", "30% - Subtle color shift");
       ("moderate", "60% - Visible rainbow");
       ("strong", "100% - Dramatic iridescence");
       ("irid-front", "100% - FRONT view");
       ("irid-rim", "100% - RIM view");
       ("irid-grazing", "100% - GRAZING view");
       ("irid-closeup", "100% - CLOSEUP view");
       ("smooth-irid-mirror", "100% irid + 0% rough") ]);
    ("08-COMBINED-MATERIALS",
     [ ("jade", "Jade - SSS + AO + Fresnel");
       ("brushed-copper", "Brushed Copper - Aniso + Metal + AO");
       ("soap-bubble", "Soap Bubble - Irid + SSS + mirror");
       ("polished-marble", "Polished Marble - SSS + AO + Fresnel");
       ("opal", "Opal - SSS + Irid + AO");
       ("brushed-titanium", "Brushed Titanium - Aniso + Metal + irid") ]);
    ("09-EDGE-CASES",
     [ ("all-zero", "All effects disabled");
       ("all-maximum", "All effects maxed");
       ("metal-sss-conflict", "Metal + SSS conflict");
       ("mirror-ao-conflict", "Mirror metal + maximum AO");
       ("extreme-aniso-irid", "Extreme aniso + iridescence") ]);
    ("10-GEOMETRY-TESTS",
     [ ("teapot", "Utah Teapot (3K verts)");
       ("bunny", "Stanford Bunny (35K verts)");
       ("suzanne", "Suzanne (507 verts)");
       ("torus-knot", "Torus Knot (4K verts)");
       ("cow", "Spot Cow (2.9K verts)");
       ("dragon", "Stanford Dragon (437K verts)") ]) ].

(** The module-level variables [total_files] and [missing_files]. *)
Record Tally : Type := mkTally {
  total_files : Z;
  missing_files : list string
}.

Section Calibration.

(** What the script takes from the platform: [os.path.join], [str.lower] and
    the format specification [:.1f] on a float. *)
Variable path_join : string -> string -> string.
Variable str_lower : string -> string.
Variable format_1f : R -> string.

(** The body of the inner loop, lines 112-119. *)
Definition test_body (category_path : string) (st : Tally * World)
    (test : string * string) : Tally * World :=
  let '(filename, description) := test in
  let '(tally, w) := st in
  let filepath := path_join category_path (filename +:+ ".png") in
  if os_path_exists filepath w then
    let total_files := (total_files tally + 1)%Z in
    let size_kb := (IZR (os_path_getsize filepath w) / 1024)%R in
    (mkTally total_files (missing_files tally),
     print ("  ✓ " +:+ format_s 30 filename +:+ " " +:+ format_s 50 description +:+
            " (" +:+ format_1f size_kb +:+ " KB)") w)
  else
    (mkTally (total_files tally) (missing_files tally ++ [filepath]),
     print ("  ✗ " +:+ format_s 30 filename +:+ " " +:+ format_s 50 description +:+
            " MISSING!") w).

(** The body of the outer loop, lines 107-119. *)
Definition category_body (st : Tally * World)
    (item : string * list (string * string)) : Tally * World :=
  let '(category, tests) := item in
  let '(tally, w) := st in
  let category_path := path_join calibration_dir (str_lower category) in
  let w := print (newline +:+ category) w in
  let w := print (str_mul "-" 80) w in
  fold_left (test_body category_path) tests (tally, w).

(** Lines 121-128: the summary. *)
Definition print_summary (tally : Tally) (w : World) : World :=
  let w := print EmptyString w in
  let w := print (str_mul "=" 80) w in
  let w := print ("SUMMARY: " +:+ pretty (total_files tally) +:+ "/63 files found") w in
  let w :=
    match missing_files tally with
    | [] => w
    | _ :: _ =>
      let w := print ("Missing: " +:+ pretty (length (missing_files tally)) +:+ " files") w in
      fold_left (fun w f => print ("  - " +:+ f) w) (missing_files tally) w
    end in
  print (str_mul "=" 80) w.

(** The whole script, lines 98-128: the final values of [total_files] and
    [missing_files], and the world it leaves. *)
Definition analyze_calibration (w : World) : Tally * World :=
  let w := print (str_mul "=" 80) w in
  let w := print "CALIBRATION SCREENSHOT ANALYSIS" w in
  let w := print (str_mul "=" 80) w in
  let w := print EmptyString w in
  let '(tally, w) := fold_left category_body categories (mkTally 0 [], w) in
  (tally, print_summary tally w).

(** The paths the script looks for, in the order it looks for them. *)
Definition expected_paths : list string :=
  flat_map
    (fun item : string * list (string * string) =>
       map (fun test : string * string =>
              path_join (path_join calibration_dir (str_lower (fst item)))
                        (fst test +:+ ".png"))
           (snd item))
    categories.

End Calibration.

Section CalibrationOutput.

Variable path_join : string -> string -> string.
Variable str_lower : string -> string.
Variable format_1f : R -> string.

(** The line [test_body] prints for a test, lines 116 and 119. *)
Definition test_line (category_path : string) (w : World) (test : string * string)
  : string :=
  let filepath := path_join category_path (fst test +:+ ".png") in
  if os_path_exists filepath w then
    "  ✓ " +:+ format_s 30 (fst test) +:+ " " +:+ format_s 50 (snd test) +:+
    " (" +:+ format_1f (IZR (os_path_getsize filepath w) / 1024)%R +:+ " KB)"
  else
    "  ✗ " +:+ format_s 30 (fst test) +:+ " " +:+ format_s 50 (snd test) +:+
    " MISSING!".

(** The arguments of the calls of [print] for a category: the heading, which
    begins with a line break, the rule, and one line for each test. *)
Definition category_lines (w : World) (item : string * list (string * string))
  : list string :=
  [newline +:+ fst item; str_mul "-" 80] ++
  map (test_line (path_join calibration_dir (str_lower (fst item))) w) (snd item).

(** The arguments of the calls of [print] before the summary. *)
Definition table_lines (w : World) : list string :=
  [str_mul "=" 80; "CALIBRATION SCREENSHOT ANALYSIS"; str_mul "=" 80; EmptyString] ++
  flat_map (category_lines w) categories.

End CalibrationOutput.

(** * The generator on binary64

    The second embedding of [generate_torus_knot_obj]: Python's numbers as
    they are.  An [int] is a [Z]; a [float] is a binary64 value of the
    kernel ([PrimFloat]), whose [+], [-], [*], [/] and square root round to
    nearest even as the C [double] operations CPython calls do.  What raises
    in Python raises here: the conversion of a too large [int] to [float]
    and an overflowing [**] raise [OverflowError], a division by zero raises
    [ZeroDivisionError], [math.cos], [math.sin] and [math.sqrt] raise
    [ValueError] as [math_1] of CPython's [mathmodule.c] decides.  The values
    of the platform's [cos], [sin] and [pow] are not fixed by any standard:
    they are the three fields of a [Libm], and every theorem with a [Libm]
    among its parameters holds for every C library.  The closed examples
    compute with [libm_ref], a table of the values of glibc.  A decimal
    literal denotes the nearest binary64 value, as it does in Python.

    The file is written through [open], [f.write] and the [close] of the
    [with] statement.  [open] fails on the paths of [denied]; a write or the
    close fails when the [Faults] of the environment say so, and then leaves
    in the file what they say. *)

Module Binary64.

Import Floats.
Local Open Scope float_scope.
Set Warnings "-inexact-float".

(** ** Numbers *)

(** The platform's [cos], [sin] and [pow] on [double]. *)
Record Libm : Type := mkLibm {
  libm_cos : float -> float;
  libm_sin : float -> float;
  libm_pow : float -> float -> float
}.

(** A Python number: an [int] or a [float]. *)
Inductive num : Type :=
| Int (z : Z)
| Float (f : float).

(** [PyLong_AsDouble]: the nearest [float], ties to even. *)
Definition int_to_float (z : Z) : result float :=
  match binary_normalize prec emax z 0 false with
  | S754_infinity _ => Raise OverflowError
  | x => Ok (SF2Prim x)
  end.

(** [PyFloat_AsDouble], as the [float] operations and [math] apply it to
    their arguments. *)
Definition to_float (a : num) : result float :=
  match a with
  | Int z => int_to_float z
  | Float f => Ok f
  end.

(** [a / b] on two [int]s ([long_true_divide]): the quotient rounded once,
    to nearest even.  The quotient is cut after at least 64 bits and a
    sticky bit records whether anything was cut. *)
Definition int_truediv (a b : Z) : result float :=
  if (b =? 0)%Z then Raise ZeroDivisionError
  else if (a =? 0)%Z then Ok (if (b <? 0)%Z then neg_zero else zero)
  else
    let negate := xorb (a <? 0)%Z (b <? 0)%Z in
    let a' := Z.abs a in
    let b' := Z.abs b in
    let k := Z.max 0 (Z.log2 b' - Z.log2 a' + 64)%Z in
    let q := ((a' * 2 ^ k) / b')%Z in
    let r := ((a' * 2 ^ k) mod b')%Z in
    let m := (2 * q + (if (r =? 0)%Z then 0 else 1))%Z in
    match binary_normalize prec emax (if negate then (- m)%Z else m) (- k - 1) false with
    | S754_infinity _ => Raise OverflowError
    | x => Ok (SF2Prim x)
    end.

(** [a * b], [a + b], [a - b]: exact on two [int]s, and on [float]s after
    converting both operands, the left one first. *)
Definition num_mul (a b : num) : result num :=
  match a, b with
  | Int x, Int y => Ok (Int (x * y))
  | _, _ => let* x := to_float a in let* y := to_float b in Ok (Float (x * y))
  end.

Definition num_add (a b : num) : result num :=
  match a, b with
  | Int x, Int y => Ok (Int (x + y))
  | _, _ => let* x := to_float a in let* y := to_float b in Ok (Float (x + y))
  end.

Definition num_sub (a b : num) : result num :=
  match a, b with
  | Int x, Int y => Ok (Int (x - y))
  | _, _ => let* x := to_float a in let* y := to_float b in Ok (Float (x - y))
  end.

(** [a / b] on two [float]s ([float_div]). *)
Definition float_truediv (a b : float) : result float :=
  if is_zero b then Raise ZeroDivisionError else Ok (a / b).

(** [a / b]. *)
Definition num_truediv (a b : num) : result float :=
  match a, b with
  | Int x, Int y => int_truediv x y
  | _, _ => let* x := to_float a in let* y := to_float b in float_truediv x y
  end.

(** [x ** 2] on a [float] ([float_pow] with the exponent 2): CPython settles
    NaN, the infinities, the zeros, the sign and 1 itself, and calls the
    platform's [pow] on what is left; an infinite result is an
    [OverflowError].  ([errno] is taken as glibc sets it: only together with
    an infinite or a zero result.) *)
Definition float_pow2 (libm : Libm) (iv : float) : result float :=
  if is_nan iv then Ok iv
  else if is_infinity iv then Ok (abs iv)
  else if is_zero iv then Ok zero
  else
    let iv := if iv <? zero then - iv else iv in
    if iv =? one then Ok one
    else
      let ix := libm_pow libm iv 2 in
      if is_infinity ix then Raise OverflowError else Ok ix.

(** [a ** 2]. *)
Definition num_pow2 (libm : Libm) (a : num) : result num :=
  match a with
  | Int x => Ok (Int (x * x))
  | Float f => let* r := float_pow2 libm f in Ok (Float r)
  end.

(** [abs(a)]. *)
Definition num_abs (a : num) : num :=
  match a with
  | Int x => Int (Z.abs x)
  | Float f => Float (abs f)
  end.

(** The exact comparison of an [int] with a [float]; [None] on NaN. *)
Definition int_compare_float (z : Z) (f : float) : option comparison :=
  match Prim2SF f with
  | S754_nan => None
  | S754_infinity s => Some (if s then Gt else Lt)
  | S754_zero _ => Some (z ?= 0)%Z
  | S754_finite s m e =>
    let m := if s then Zneg m else Zpos m in
    Some (if (0 <=? e)%Z then (z ?= m * 2 ^ e)%Z else (z * 2 ^ (- e) ?= m)%Z)
  end.

(** [a < b]. *)
Definition num_lt (a b : num) : bool :=
  match a, b with
  | Int x, Int y => (x <? y)%Z
  | Float x, Float y => x <? y
  | Int x, Float y =>
    match int_compare_float x y with Some Lt => true | _ => false end
  | Float x, Int y =>
    match int_compare_float y x with Some Gt => true | _ => false end
  end.

(** [math_1] of [mathmodule.c], without overflow: how [math.cos],
    [math.sin] and [math.sqrt] turn the result of the C function into a
    result or a [ValueError]. *)
Definition math_1 (func : float -> float) (x : float) : result float :=
  let r := func x in
  if is_nan r && negb (is_nan x) then Raise ValueError
  else if is_infinity r && is_finite x then Raise ValueError
  else Ok r.

Definition math_cos (libm : Libm) (x : float) : result float :=
  math_1 (libm_cos libm) x.

Definition math_sin (libm : Libm) (x : float) : result float :=
  math_1 (libm_sin libm) x.

Definition math_sqrt (a : num) : result float :=
  let* x := to_float a in math_1 sqrt x.

(** [math.pi]. *)
Definition math_pi : float := 0x1.921fb54442d18p+1.

(** ** Vectors and meshes *)

(** A tuple of three numbers, and a tuple of three [float]s. *)
Definition vec : Type := (num * num * num)%type.
Definition fvec : Type := (float * float * float)%type.

Definition item0 {A : Type} (v : A * A * A) : A := fst (fst v).
Definition item1 {A : Type} (v : A * A * A) : A := snd (fst v).
Definition item2 {A : Type} (v : A * A * A) : A := snd v.

Record Mesh : Type := mkMesh {
  vertices : list fvec;
  normals : list fvec;
  faces : list Face
}.

(** ** The nested functions *)

Section Generator.

Variable libm : Libm.
Variables (p q path_segments tube_segments : Z).
Variables (torus_radius tube_radius : float).

(** [n * x] for an [int] [n] and a [float] [x]. *)
Definition int_mul_float (n : Z) (x : float) : result float :=
  let* n := int_to_float n in Ok (n * x).

(** [calculate_position(t)], lines 21-38. *)
Definition calculate_position (t : float) : result fvec :=
  let* pt := int_mul_float p t in
  let* qt := int_mul_float q t in
  let* cos_pt := math_cos libm pt in
  let* sin_pt := math_sin libm pt in
  let* cos_qt := math_cos libm qt in
  let* sin_qt := math_sin libm qt in
  let R_ := torus_radius in
  let r := tube_radius * 2 in
  let x := cos_pt * (R_ + r * cos_qt) in
  let y := sin_pt * (R_ + r * cos_qt) in
  let z := r * sin_qt in
  Ok (x, y, z).

(** Lines 42-50 of [calculate_tangent(t)]: [dx_dt], [dy_dt] and [dz_dt], the
    calls and conversions in the order Python makes them. *)
Definition derivative (t : float) : result fvec :=
  let* pt := int_mul_float p t in
  let* qt := int_mul_float q t in
  let* sin_pt := math_sin libm pt in
  let* a := int_mul_float (- p) sin_pt in
  let* cos_qt := math_cos libm qt in
  let a := a * (torus_radius + tube_radius * 2 * cos_qt) in
  let* b := int_mul_float q tube_radius in
  let* cos_pt := math_cos libm pt in
  let* sin_qt := math_sin libm qt in
  let dx_dt := a - b * 2 * cos_pt * sin_qt in
  let* cos_pt := math_cos libm pt in
  let* a := int_mul_float p cos_pt in
  let* cos_qt := math_cos libm qt in
  let a := a * (torus_radius + tube_radius * 2 * cos_qt) in
  let* b := int_mul_float q tube_radius in
  let* sin_pt := math_sin libm pt in
  let* sin_qt := math_sin libm qt in
  let dy_dt := a - b * 2 * sin_pt * sin_qt in
  let* b := int_mul_float q tube_radius in
  let* cos_qt := math_cos libm qt in
  let dz_dt := b * 2 * cos_qt in
  Ok (dx_dt, dy_dt, dz_dt).

(** Line 52: [math.sqrt(x**2 + y**2 + z**2)] on three [float]s. *)
Definition float_length (d : fvec) : result float :=
  let* x2 := float_pow2 libm (item0 d) in
  let* y2 := float_pow2 libm (item1 d) in
  let* z2 := float_pow2 libm (item2 d) in
  math_sqrt (Float (x2 + y2 + z2)).

(** [calculate_tangent(t)], lines 40-55. *)
Definition calculate_tangent (t : float) : result vec :=
  let* d := derivative t in
  let* length := float_length d in
  if num_lt (Int 0) (Float length) then
    let* x := float_truediv (item0 d) length in
    let* y := float_truediv (item1 d) length in
    let* z := float_truediv (item2 d) length in
    Ok (Float x, Float y, Float z)
  else Ok (Int 1, Int 0, Int 0).

(** [cross_product(a, b)], lines 57-63. *)
Definition cross_product (a b : vec) : result vec :=
  let* x1 := num_mul (item1 a) (item2 b) in
  let* x2 := num_mul (item2 a) (item1 b) in
  let* x := num_sub x1 x2 in
  let* y1 := num_mul (item2 a) (item0 b) in
  let* y2 := num_mul (item0 a) (item2 b) in
  let* y := num_sub y1 y2 in
  let* z1 := num_mul (item0 a) (item1 b) in
  let* z2 := num_mul (item1 a) (item0 b) in
  let* z := num_sub z1 z2 in
  Ok (x, y, z).

(** Line 67: [math.sqrt(v[0]**2 + v[1]**2 + v[2]**2)] on three numbers. *)
Definition num_length (v : vec) : result float :=
  let* x2 := num_pow2 libm (item0 v) in
  let* y2 := num_pow2 libm (item1 v) in
  let* s := num_add x2 y2 in
  let* z2 := num_pow2 libm (item2 v) in
  let* s := num_add s z2 in
  math_sqrt s.

(** [normalize(v)], lines 65-70. *)
Definition normalize (v : vec) : result vec :=
  let* length := num_length v in
  if num_lt (Int 0) (Float length) then
    let* x := num_truediv (item0 v) (Float length) in
    let* y := num_truediv (item1 v) (Float length) in
    let* z := num_truediv (item2 v) (Float length) in
    Ok (Float x, Float y, Float z)
  else Ok (Int 0, Int 0, Int 1).

(** The frame construction, lines 79-86. *)
Definition frame (tangent : vec) : result (vec * vec) :=
  let up := if num_lt (num_abs (item2 tangent)) (Float 0.9)
            then (Int 0, Int 0, Int 1) else (Int 0, Int 1, Int 0) in
  let* c := cross_product tangent up in
  let* normal1 := normalize c in
  let* c := cross_product tangent normal1 in
  let* normal2 := normalize c in
  Ok (normal1, normal2).

(** [a * c + b * s] for two numbers [a], [b] and two [float]s [c], [s]. *)
Definition combine (a b : num) (c s : float) : result float :=
  let* a := to_float a in
  let* b := to_float b in
  Ok (a * c + b * s).

(** The body of the inner loop, lines 89-105. *)
Definition tube_body (pos : fvec) (normal1 normal2 : vec) (j : Z)
    (st : list fvec * list fvec) : result (list fvec * list fvec) :=
  let* f := int_truediv j tube_segments in
  let v := f * 2 * math_pi in
  let* cos_v := math_cos libm v in
  let* sin_v := math_sin libm v in
  let* nx := combine (item0 normal1) (item0 normal2) cos_v sin_v in
  let* ny := combine (item1 normal1) (item1 normal2) cos_v sin_v in
  let* nz := combine (item2 normal1) (item2 normal2) cos_v sin_v in
  let vx := item0 pos + tube_radius * nx in
  let vy := item1 pos + tube_radius * ny in
  let vz := item2 pos + tube_radius * nz in
  Ok (fst st ++ [(vx, vy, vz)], snd st ++ [(nx, ny, nz)]).

(** The body of the outer loop, lines 74-105. *)
Definition ring_body (i : Z) (st : list fvec * list fvec)
  : result (list fvec * list fvec) :=
  let* f := int_truediv i path_segments in
  let u := f * 2 * math_pi in
  let* pos := calculate_position u in
  let* tangent := calculate_tangent u in
  let* (normal1, normal2) := frame tangent in
  for_each (range (tube_segments + 1)) (tube_body pos normal1 normal2) st.

(** Lines 17-19 and 72-116. *)
Definition build_mesh : result Mesh :=
  let* vn := for_each (range (path_segments + 1)) ring_body ([], []) in
  let fs := fold_left
              (fun fs i => fold_left (fun fs j => face_body tube_segments i j fs)
                             (range tube_segments) fs)
              (range path_segments) [] in
  Ok (mkMesh (fst vn) (snd vn) fs).

End Generator.


(** ** The values of the C library this development computes with *)

(** [cos] and [sin] of glibc at the multiples of a quarter turn that the
    sample configurations of this file reach; NaN elsewhere, so that a
    computation that leaves the table stops with a [ValueError]. *)
Definition libm_table : list (float * (float * float)) :=
  [ (0x0p+0, (0x1p+0, 0x0p+0));
    (0x1.921fb54442d18p+0, (0x1.1a62633145c07p-54, 0x1p+0));
    (0x1.921fb54442d18p+1, (-0x1p+0, 0x1.1a62633145c07p-53));
    (0x1.2d97c7f3321d2p+2, (-0x1.a79394c9e8a0ap-53, -0x1p+0));
    (0x1.921fb54442d18p+2, (0x1p+0, -0x1.1a62633145c07p-52));
    (0x1.2d97c7f3321d2p+3, (-0x1p+0, 0x1.a79394c9e8a0ap-52));
    (0x1.921fb54442d18p+3, (0x1p+0, -0x1.1a62633145c07p-51));
    (0x1.c463abeccb2bbp+3, (0x1.3daeaf976e788p-51, 0x1p+0));
    (0x1.2d97c7f3321d2p+4, (0x1p+0, -0x1.a79394c9e8a0ap-51)) ].

Fixpoint libm_lookup (x : float) (table : list (float * (float * float)))
  : float * float :=
  match table with
  | [] => (nan, nan)
  | (k, v) :: table' => if Leibniz.eqb k x then v else libm_lookup x table'
  end.

(** [pow(x, 2.0)] is the correctly rounded square. *)
Definition libm_ref : Libm :=
  mkLibm (fun x => fst (libm_lookup x libm_table))
         (fun x => snd (libm_lookup x libm_table))
         (fun x y => if Leibniz.eqb y 2 then x * x else nan).

(** ** The serializer *)

(** [n / d] for [0 <= n] and [0 < d], rounded to the nearest integer, ties
    to even. *)
Definition round_half_even (n d : Z) : Z :=
  let q := (n / d)%Z in
  let r := (n mod d)%Z in
  if (2 * r <? d)%Z then q
  else if (d <? 2 * r)%Z then (q + 1)%Z
  else if Z.even q then q else (q + 1)%Z.

(** The format specification [:.6f] on a [float]: the exact value, rounded
    to six decimals, ties to even; the sign is kept on a zero. *)
Definition format_6f (x : float) : string :=
  match Prim2SF x with
  | S754_nan => "nan"
  | S754_infinity s => if s then "-inf" else "inf"
  | S754_zero s => (if s then "-" else EmptyString) +:+ "0.000000"
  | S754_finite s m e =>
    let n := if (0 <=? e)%Z then (Z.pos m * 2 ^ e * 10 ^ 6)%Z
             else round_half_even (Z.pos m * 10 ^ 6) (2 ^ (- e)) in
    let frac := pretty (n mod 10 ^ 6)%Z in
    (if s then "-" else EmptyString) +:+ pretty (n / 10 ^ 6)%Z +:+ "." +:+
    str_mul "0" (6 - String.length frac) +:+ frac
  end.

(** Line 126. *)
Definition vertex_line (v : fvec) : string :=
  "v " +:+ format_6f (item0 v) +:+ " " +:+ format_6f (item1 v) +:+ " " +:+
  format_6f (item2 v) +:+ newline.

(** Line 132. *)
Definition normal_line (n : fvec) : string :=
  "vn " +:+ format_6f (item0 n) +:+ " " +:+ format_6f (item1 n) +:+ " " +:+
  format_6f (item2 n) +:+ newline.

(** Line 138. *)
Definition face_line (face : Face) : string :=
  let '(a, b, c, d) := face in
  "f " +:+ pretty a +:+ "//" +:+ pretty a +:+ " " +:+
  pretty b +:+ "//" +:+ pretty b +:+ " " +:+
  pretty c +:+ "//" +:+ pretty c +:+ " " +:+
  pretty d +:+ "//" +:+ pretty d +:+ newline.

(** ** Writing the file *)

(** What the script does with the file it has opened. *)
Inductive io_op : Type :=
| IoWrite (s : string)
| IoClose.

(** The faults of the environment.  [faults path text op] tells whether the
    operation [op] on the file at [path], of which [text] has been written,
    raises [OSError], and what the file holds afterwards. *)
Definition Faults : Type := string -> string -> io_op -> option string.

Definition no_faults : Faults := fun _ _ _ => None.

Definition set_file (path text : string) (w : World) : World :=
  mkWorld (<[path := text]> (files w)) (denied w) (stdout w).

(** [f.write(s)] and [f.close()] on the file opened at [path]. *)
Definition file_op (faults : Faults) (path : string) (op : io_op) (w : World)
  : result unit * World :=
  let text := default EmptyString (files w !! path) in
  match faults path text op with
  | Some rest => (Raise OSError, set_file path rest w)
  | None =>
    (Ok tt,
     match op with
     | IoWrite s => set_file path (text +:+ s) w
     | IoClose => w
     end)
  end.

(** A block of statements that change the world and may raise: they run in
    order, up to the first exception. *)
Fixpoint block (stmts : list (World -> result unit * World)) (w : World)
  : result unit * World :=
  match stmts with
  | [] => (Ok tt, w)
  | stmt :: stmts' =>
    match stmt w with
    | (Ok _, w') => block stmts' w'
    | (Raise e, w') => (Raise e, w')
    end
  end.

(** [for x in xs: body(x)]. *)
Definition for_io {A : Type} (xs : list A) (body : A -> World -> result unit * World)
  : World -> result unit * World :=
  block (map body xs).

(** [with open(path, 'w') as f: body].  The file is closed when the body is
    left, by its end or by an exception; an exception of [close] takes the
    place of the one of the body. *)
Definition with_open_w (faults : Faults) (path : string)
    (body : World -> result unit * World) (w : World) : result unit * World :=
  match open_w path w with
  | Raise e => (Raise e, w)
  | Ok w =>
    let '(r, w) := body w in
    let '(c, w) := file_op faults path IoClose w in
    (match c with Raise e => Raise e | Ok _ => r end, w)
  end.

(** The body of the [with] block, lines 120-138. *)
Definition write_obj (faults : Faults) (p q : Z) (m : Mesh) (output_file : string)
  : World -> result unit * World :=
  let f_write s := file_op faults output_file (IoWrite s) in
  block
    [ f_write ("# Torus Knot (" +:+ pretty p +:+ "," +:+ pretty q +:+ ")" +:+ newline);
      f_write ("# Generated with correct parametric equations" +:+ newline);
      f_write ("# Vertices: " +:+ pretty (length (vertices m)) +:+ ", Faces: " +:+
               pretty (length (faces m)) +:+ newline +:+ newline);
      for_io (vertices m) (fun v => f_write (vertex_line v));
      f_write newline;
      for_io (normals m) (fun n => f_write (normal_line n));
      f_write newline;
      for_io (faces m) (fun face => f_write (face_line face)) ].

(** [generate_torus_knot_obj], lines 7-143: the result of the call and the
    world it leaves. *)
Definition generate_torus_knot_obj (libm : Libm) (faults : Faults)
    (p q path_segments tube_segments : Z) (torus_radius tube_radius : float)
    (output_file : string) (w : World) : result unit * World :=
  match build_mesh libm p q path_segments tube_segments torus_radius tube_radius with
  | Raise e => (Raise e, w)
  | Ok m =>
    match with_open_w faults output_file (write_obj faults p q m output_file) w with
    | (Raise e, w) => (Raise e, w)
    | (Ok _, w) =>
      let w := print ("Generated " +:+ output_file) w in
      let w := print ("  Vertices: " +:+ pretty (length (vertices m))) w in
      let w := print ("  Normals: " +:+ pretty (length (normals m))) w in
      let w := print ("  Faces: " +:+ pretty (length (faces m))) w in
      (Ok tt, w)
    end
  end.

(** ** Vocabulary of the properties *)

(** The strings the [with] block writes, in order, and the text they make. *)
Definition obj_writes (p q : Z) (m : Mesh) : list string :=
  [ "# Torus Knot (" +:+ pretty p +:+ "," +:+ pretty q +:+ ")" +:+ newline;
    "# Generated with correct parametric equations" +:+ newline;
    "# Vertices: " +:+ pretty (length (vertices m)) +:+ ", Faces: " +:+
      pretty (length (faces m)) +:+ newline +:+ newline ] ++
  map vertex_line (vertices m) ++ [newline] ++
  map normal_line (normals m) ++ [newline] ++
  map face_line (faces m).

Definition obj_text (p q : Z) (m : Mesh) : string :=
  fold_right String.append EmptyString (obj_writes p q m).

(** The four lines printed after the file is closed, lines 140-143. *)
Definition report (output_file : string) (m : Mesh) : list string :=
  [ "Generated " +:+ output_file;
    "  Vertices: " +:+ pretty (length (vertices m));
    "  Normals: " +:+ pretty (length (normals m));
    "  Faces: " +:+ pretty (length (faces m)) ].

(** The errors of the arithmetic of [float]s. *)
Definition numeric (e : exn) : Prop := e = OverflowError \/ e = ValueError.

(** The result [m] raises no exception outside [P]. *)
Definition raises_only {A : Type} (P : exn -> Prop) (m : result A) : Prop :=
  forall e : exn, m = Raise e -> P e.

(** A number that is zero: [0], [0.0] or [-0.0]. *)
Definition num_is_zero (a : num) : bool :=
  match a with
  | Int z => (z =? 0)%Z
  | Float f => is_zero f
  end.

(** A computation that raises an arithmetic error or appends [n] vertices
    and [n] normals. *)
Definition grows (n : nat) (st : list fvec * list fvec)
    (r : result (list fvec * list fvec)) : Prop :=
  match r with
  | Raise e => numeric e
  | Ok st' =>
    exists (vs ns : list fvec),
      st' = (fst st ++ vs, snd st ++ ns) /\ length vs = n /\ length ns = n
  end.

(** What a statement inside the [with] block may do: change the text of the
    file at [path], and raise [OSError]. *)
Definition touches_file (path : string) (stmt : World -> result unit * World) : Prop :=
  forall w : World,
    (fst (stmt w) = Ok tt \/ fst (stmt w) = Raise OSError) /\
    denied (snd (stmt w)) = denied w /\
    stdout (snd (stmt w)) = stdout w /\
    forall path' : string, path' <> path -> files (snd (stmt w)) !! path' = files w !! path'.

(** The statements [f.write(s)] for the strings of a list. *)
Definition writes (faults : Faults) (path : string) (chunks : list string)
  : list (World -> result unit * World) :=
  map (fun s => file_op faults path (IoWrite s)) chunks.

(** An environment in which the default destination exists and something
    has been printed. *)
Definition stale_world : World :=
  mkWorld {["torus-knot.obj" := "old text"]} ∅ ["earlier line"].

(** Lines, each ended by a line break. *)
Definition unlines (lines : list string) : string :=
  fold_right (fun line text => line +:+ newline +:+ text) EmptyString lines.

(** The file of the configuration [p = q = 1] with one segment in each
    direction, radii [1.0] and [0.3]. *)
Definition sample_text : string :=
  unlines
    [ "# Torus Knot (1,1)";
      "# Generated with correct parametric equations";
      "# Vertices: 4, Faces: 1";
      EmptyString;
      "v 1.900000 0.000000 0.000000";
      "v 1.900000 -0.000000 0.000000";
      "v 1.900000 -0.000000 -0.000000";
      "v 1.900000 -0.000000 -0.000000";
      EmptyString;
      "vn 1.000000 0.000000 -0.000000";
      "vn 1.000000 -0.000000 0.000000";
      "vn 1.000000 -0.000000 0.000000";
      "vn 1.000000 -0.000000 0.000000";
      EmptyString;
      "f 1//1 2//2 4//4 3//3" ].

End Binary64.

(** * Properties *)

(** ** The guarded primitives never raise *)

Section Totality.

Open Scope R_scope.

Lemma sum_squares_nonneg (a b c : R) : 0 <= a ^ 2 + b ^ 2 + c ^ 2.
Proof. nra. Qed.

Lemma math_sqrt_sum_squares (a b c : R) :
  math_sqrt (a ^ 2 + b ^ 2 + c ^ 2) = Ok (sqrt (a ^ 2 + b ^ 2 + c ^ 2)).
Proof.
  unfold math_sqrt. destruct (Rlt_dec _ 0) as [Hneg | _]; [| reflexivity].
  pose proof (sum_squares_nonneg a b c). lra.
Qed.

Lemma float_truediv_pos (a l : R) : 0 < l -> float_truediv a l = Ok (a / l).
Proof.
  intros Hl. unfold float_truediv.
  destruct (Req_dec_T l 0) as [Hz | _]; [lra | reflexivity].
Qed.

Lemma int_truediv_nonzero (a b : Z) :
  b <> 0%Z -> int_truediv a b = Ok (IZR a / IZR b).
Proof.
  intros Hb. unfold int_truediv.
  destruct (Z.eq_dec b 0%Z) as [Hz | _]; [contradiction | reflexivity].
Qed.

(** [normalize] is the total function [unit_or (0, 0, 1)]. *)
Lemma normalize_unit_or (v : Vec3) : normalize v = Ok (unit_or (0, 0, 1) v).
Proof.
  unfold normalize, unit_or, norm.
  rewrite math_sqrt_sum_squares. cbn [bind].
  destruct (Rlt_dec 0 _) as [Hpos | _]; [| reflexivity].
  rewrite !float_truediv_pos by exact Hpos. reflexivity.
Qed.

(** [calculate_tangent] is the total function [unit_or (1, 0, 0)] of the
    derivative. *)
Lemma calculate_tangent_unit_or (p q : Z) (torus_radius tube_radius t : R) :
  calculate_tangent p q torus_radius tube_radius t =
  Ok (unit_or (1, 0, 0) (derivative p q torus_radius tube_radius t)).
Proof.
  unfold calculate_tangent, unit_or, norm, derivative, item0, item1, item2.
  cbn [fst snd].
  rewrite math_sqrt_sum_squares. cbn [bind].
  destruct (Rlt_dec 0 _) as [Hpos | _]; [| reflexivity].
  rewrite !float_truediv_pos by exact Hpos. reflexivity.
Qed.

Lemma frame_frame_of (tangent : Vec3) : frame tangent = Ok (frame_of tangent).
Proof.
  unfold frame, frame_of.
  rewrite normalize_unit_or. cbn [bind].
  rewrite normalize_unit_or. reflexivity.
Qed.

End Totality.

(** ** Ranges and loops *)

Section Loops.

Open Scope Z_scope.

Lemma range_nonpos (n : Z) : n <= 0 -> range n = [].
Proof.
  intros Hn. unfold range. replace (Z.to_nat n) with 0%nat by lia. reflexivity.
Qed.

Lemma range_pos_head (n : Z) : 0 < n -> exists l, range n = 0 :: l.
Proof.
  intros Hn. unfold range.
  destruct (Z.to_nat n) as [| k] eqn:Hk; [lia |].
  cbn [seq map]. eauto.
Qed.

Lemma length_range (n : Z) : length (range n) = Z.to_nat n.
Proof. unfold range. now rewrite length_map, length_seq. Qed.

Lemma elem_of_range (n x : Z) : x ∈ range n <-> 0 <= x < n.
Proof.
  unfold range. rewrite list_elem_of_fmap. split.
  - intros (k & -> & Hk). apply elem_of_seq in Hk. lia.
  - intros Hx. exists (Z.to_nat x). split; [lia |].
    apply elem_of_seq. lia.
Qed.

Lemma lookup_range (n j : Z) : 0 <= j < n -> range n !! Z.to_nat j = Some j.
Proof.
  intros Hj. unfold range.
  rewrite list_lookup_fmap, lookup_seq_lt by lia.
  cbn. f_equal. lia.
Qed.

(** A loop whose body appends to two lists appends the concatenation of what
    the iterations append. *)
Lemma for_each_append {A B C : Type} (body : A -> list B * list C -> result (list B * list C))
    (G : A -> list B) (H : A -> list C) (xs : list A) :
  (forall x s, x ∈ xs -> body x s = Ok (fst s ++ G x, snd s ++ H x)) ->
  forall st, for_each xs body st = Ok (fst st ++ flat_map G xs, snd st ++ flat_map H xs).
Proof.
  induction xs as [| x xs IH]; intros Hbody st; cbn [for_each flat_map].
  - now rewrite !app_nil_r, <- surjective_pairing.
  - rewrite Hbody by left. cbn [bind].
    rewrite IH by (intros y s Hy; apply Hbody; now right).
    cbn [fst snd]. now rewrite <- !app_assoc.
Qed.

Lemma flat_map_singleton {A B : Type} (g : A -> B) (xs : list A) :
  flat_map (fun x => [g x]) xs = map g xs.
Proof. induction xs as [| x xs IH]; cbn; [reflexivity | now rewrite IH]. Qed.

Lemma fold_left_append {A B : Type} (f : list B -> A -> list B)
    (G : A -> list B) (xs : list A) :
  (forall acc x, f acc x = acc ++ G x) ->
  forall acc, fold_left f xs acc = acc ++ flat_map G xs.
Proof.
  intros Hf. induction xs as [| x xs IH]; intros acc; cbn [fold_left flat_map].
  - now rewrite app_nil_r.
  - now rewrite IH, Hf, <- app_assoc.
Qed.

(** *** Grids *)

Lemma lookup_rows {A : Type} (F : nat -> list A) (n : nat) :
  (forall a, length (F a) = n) ->
  forall (m s k j : nat), (k < m)%nat -> (j < n)%nat ->
  flat_map F (seq s m) !! (k * n + j)%nat = F (s + k)%nat !! j.
Proof.
  intros Hlen. induction m as [| m IH]; intros s k j Hk Hj; [lia |].
  cbn [seq flat_map]. destruct k as [| k].
  - rewrite lookup_app_l by (rewrite Hlen; lia).
    cbn. now rewrite Nat.add_0_r.
  - rewrite lookup_app_r by (rewrite Hlen; lia).
    rewrite Hlen. replace (S k * n + j - n)%nat with (k * n + j)%nat by lia.
    rewrite IH by lia. f_equal. f_equal. lia.
Qed.

Lemma flat_map_fmap {A B C : Type} (h : A -> B) (F : B -> list C) (xs : list A) :
  flat_map F (map h xs) = flat_map (fun x => F (h x)) xs.
Proof. induction xs as [| x xs IH]; cbn; [reflexivity | now rewrite IH]. Qed.

Lemma lookup_grid {A : Type} (g : Z -> Z -> A) (rows cols i j : Z) :
  0 <= i < rows -> 0 <= j < cols ->
  grid g rows cols !! Z.to_nat (i * cols + j) = Some (g i j).
Proof.
  intros Hi Hj. unfold grid, range at 2. rewrite flat_map_fmap.
  replace (Z.to_nat (i * cols + j))
    with (Z.to_nat i * Z.to_nat cols + Z.to_nat j)%nat by nia.
  rewrite (lookup_rows _ (Z.to_nat cols)); try lia.
  - rewrite list_lookup_fmap, lookup_range by lia. cbn.
    do 2 f_equal. lia.
  - intros a. now rewrite length_map, length_range.
Qed.

Lemma length_grid {A : Type} (g : Z -> Z -> A) (rows cols : Z) :
  length (grid g rows cols) = (Z.to_nat rows * Z.to_nat cols)%nat.
Proof.
  unfold grid. rewrite <- (length_range rows).
  induction (range rows) as [| i l IH]; [reflexivity |].
  cbn [flat_map]. rewrite length_app, length_map, length_range, IH.
  cbn [length]. lia.
Qed.

Lemma elem_of_grid {A : Type} (g : Z -> Z -> A) (rows cols : Z) (x : A) :
  x ∈ grid g rows cols <->
  exists i j, 0 <= i < rows /\ 0 <= j < cols /\ x = g i j.
Proof.
  unfold grid. rewrite list_elem_of_In, in_flat_map. split.
  - intros (i & Hi & Hx). apply in_map_iff in Hx as (j & <- & Hj).
    apply list_elem_of_In, elem_of_range in Hi.
    apply list_elem_of_In, elem_of_range in Hj. eauto.
  - intros (i & j & Hi & Hj & ->). exists i. split.
    + now apply list_elem_of_In, elem_of_range.
    + apply in_map. now apply list_elem_of_In, elem_of_range.
Qed.

End Loops.

(** ** What the two loop nests build *)

Section BuildMesh.

Open Scope Z_scope.

Variables (p q path_segments tube_segments : Z).
Variables (torus_radius tube_radius : R).

Local Abbreviation vertex :=
  (ring_vertex p q path_segments tube_segments torus_radius tube_radius).
Local Abbreviation normal :=
  (ring_normal p q path_segments tube_segments torus_radius tube_radius).

Lemma ring_body_append (i : Z) (st : list Vec3 * list Vec3) :
  path_segments <> 0%Z -> tube_segments <> 0%Z ->
  ring_body p q path_segments tube_segments torus_radius tube_radius i st =
  Ok (fst st ++ map (vertex i) (range (tube_segments + 1)),
      snd st ++ map (normal i) (range (tube_segments + 1))).
Proof.
  intros Hp Ht. unfold ring_body.
  rewrite int_truediv_nonzero by exact Hp. cbn [bind].
  rewrite calculate_tangent_unit_or. cbn [bind].
  rewrite frame_frame_of. cbn [bind].
  destruct (frame_of _) as [normal1 normal2] eqn:Hframe.
  rewrite <- !flat_map_singleton.
  apply for_each_append. intros j s _.
  unfold tube_body. rewrite int_truediv_nonzero by exact Ht. cbn [bind].
  unfold ring_vertex, ring_normal, angle.
  rewrite Hframe. reflexivity.
Qed.

Lemma faces_loop_grid :
  fold_left
    (fun fs i => fold_left (fun fs j => face_body tube_segments i j fs)
                   (range tube_segments) fs)
    (range path_segments) [] =
  grid (quad tube_segments) path_segments tube_segments.
Proof.
  unfold grid.
  rewrite (fold_left_append _ (fun i => map (quad tube_segments i) (range tube_segments)));
    [reflexivity |].
  intros fs i. rewrite <- flat_map_singleton.
  now apply fold_left_append.
Qed.

(** The mesh of every configuration whose divisions are defined. *)
Lemma build_mesh_ok :
  (path_segments < 0 \/ (path_segments <> 0 /\ tube_segments <> 0))%Z ->
  build_mesh p q path_segments tube_segments torus_radius tube_radius =
  Ok (mkMesh (grid vertex (path_segments + 1) (tube_segments + 1))
             (grid normal (path_segments + 1) (tube_segments + 1))
             (grid (quad tube_segments) path_segments tube_segments)).
Proof.
  intros Hcfg. unfold build_mesh. rewrite faces_loop_grid.
  destruct (Z.eq_dec path_segments 0) as [Hz | Hnz].
  - destruct Hcfg as [Hneg | [Hp _]]; [lia | contradiction].
  - destruct (Z.eq_dec tube_segments 0) as [Htz | Htnz].
    + destruct Hcfg as [Hneg | [_ Ht]]; [| contradiction].
      unfold grid. rewrite (range_nonpos (path_segments + 1)) by lia.
      reflexivity.
    + rewrite (for_each_append _ (fun i => map (vertex i) (range (tube_segments + 1)))
                 (fun i => map (normal i) (range (tube_segments + 1)))).
      * reflexivity.
      * intros i s _. now apply ring_body_append.
Qed.

End BuildMesh.

(** ** Full turns *)

Section FullTurns.

Open Scope R_scope.

Lemma cos_sin_nat_turns (n : nat) :
  cos (INR n * (2 * PI)) = 1 /\ sin (INR n * (2 * PI)) = 0.
Proof.
  replace (INR n * (2 * PI)) with (0 + 2 * INR n * PI) by ring.
  rewrite cos_period, sin_period. split; [apply cos_0 | apply sin_0].
Qed.

(** A whole number of turns is the angle zero for [cos] and [sin]. *)
Lemma cos_sin_turns (k : Z) :
  cos (IZR k * (2 * PI)) = 1 /\ sin (IZR k * (2 * PI)) = 0.
Proof.
  destruct (Z_le_gt_dec 0 k) as [Hk | Hk].
  - rewrite <- (Z2Nat.id k), <- INR_IZR_INZ by exact Hk. apply cos_sin_nat_turns.
  - replace (IZR k) with (- INR (Z.to_nat (- k))).
    + rewrite <- Ropp_mult_distr_l, cos_neg, sin_neg.
      destruct (cos_sin_nat_turns (Z.to_nat (- k))) as [-> ->]. split; lra.
    + rewrite INR_IZR_INZ, Z2Nat.id, opp_IZR by lia. lra.
Qed.

Lemma angle_first (segments : Z) : angle 0 segments = 0.
Proof. unfold angle, Rdiv. ring. Qed.

Lemma angle_last (segments : Z) : segments <> 0%Z -> angle segments segments = 2 * PI.
Proof.
  intros Hs. unfold angle. field. now apply not_0_IZR.
Qed.

Lemma calculate_position_full_turn (p q : Z) (torus_radius tube_radius : R) :
  calculate_position p q torus_radius tube_radius (2 * PI) =
  calculate_position p q torus_radius tube_radius 0.
Proof.
  unfold calculate_position.
  destruct (cos_sin_turns p) as [-> ->]. destruct (cos_sin_turns q) as [-> ->].
  rewrite (Rmult_0_r (IZR p)), (Rmult_0_r (IZR q)), cos_0, sin_0. reflexivity.
Qed.

Lemma derivative_full_turn (p q : Z) (torus_radius tube_radius : R) :
  derivative p q torus_radius tube_radius (2 * PI) =
  derivative p q torus_radius tube_radius 0.
Proof.
  unfold derivative.
  destruct (cos_sin_turns p) as [-> ->]. destruct (cos_sin_turns q) as [-> ->].
  rewrite (Rmult_0_r (IZR p)), (Rmult_0_r (IZR q)), cos_0, sin_0. reflexivity.
Qed.

End FullTurns.

(** ** Rings of the mesh *)

Section Rings.

Variables (p q path_segments tube_segments : Z).
Variables (torus_radius tube_radius : R).

(** The last vertex of a ring is its first vertex. *)
Lemma ring_normal_seam (i : Z) :
  tube_segments <> 0%Z ->
  ring_normal p q path_segments tube_segments torus_radius tube_radius i tube_segments =
  ring_normal p q path_segments tube_segments torus_radius tube_radius i 0.
Proof.
  intros Ht. unfold ring_normal.
  rewrite angle_last, angle_first by exact Ht.
  now rewrite cos_2PI, sin_2PI, cos_0, sin_0.
Qed.

Lemma ring_vertex_seam (i : Z) :
  tube_segments <> 0%Z ->
  ring_vertex p q path_segments tube_segments torus_radius tube_radius i tube_segments =
  ring_vertex p q path_segments tube_segments torus_radius tube_radius i 0.
Proof.
  intros Ht. unfold ring_vertex. now rewrite ring_normal_seam.
Qed.

(** The last ring is the first ring. *)
Lemma ring_normal_closed (j : Z) :
  path_segments <> 0%Z ->
  ring_normal p q path_segments tube_segments torus_radius tube_radius path_segments j =
  ring_normal p q path_segments tube_segments torus_radius tube_radius 0 j.
Proof.
  intros Hp. unfold ring_normal.
  rewrite angle_last, angle_first by exact Hp.
  now rewrite derivative_full_turn.
Qed.

Lemma ring_vertex_closed (j : Z) :
  path_segments <> 0%Z ->
  ring_vertex p q path_segments tube_segments torus_radius tube_radius path_segments j =
  ring_vertex p q path_segments tube_segments torus_radius tube_radius 0 j.
Proof.
  intros Hp. unfold ring_vertex. rewrite ring_normal_closed by exact Hp.
  rewrite angle_last, angle_first by exact Hp.
  now rewrite calculate_position_full_turn.
Qed.

End Rings.

(** ** Strings *)

Lemma append_assoc (s1 s2 s3 : string) : (s1 +:+ s2) +:+ s3 = s1 +:+ (s2 +:+ s3).
Proof.
  induction s1 as [| c s1 IH]; [reflexivity |].
  change (String c ((s1 +:+ s2) +:+ s3) = String c (s1 +:+ (s2 +:+ s3))).
  now rewrite IH.
Qed.

Lemma append_empty_r (s : string) : s +:+ EmptyString = s.
Proof.
  induction s as [| c s IH]; [reflexivity |].
  change (String c (s +:+ EmptyString) = String c s).
  now rewrite IH.
Qed.

(** * The claims in exact real arithmetic *)

(** ** Faces *)

(** C3.  For every valid configuration, the face of cell [(i, j)] is
    [(v1, v2, v4, v3)], one-based, with [v1 = i*(tube_segments+1)+j],
    [v2 = v1+1], [v3 = v1+(tube_segments+1)], [v4 = v3+1]; the faces are
    exactly these; every index of every face lies in [[1, vertex_count]], and
    the four indices of a face are pairwise distinct. *)
Theorem face_indices (p q path_segments tube_segments : Z) (torus_radius tube_radius : R) :
  valid_configuration p q path_segments tube_segments ->
  exists m : Mesh,
    build_mesh p q path_segments tube_segments torus_radius tube_radius = Ok m /\
    (forall i j : Z,
       (0 <= i < path_segments)%Z -> (0 <= j < tube_segments)%Z ->
       let v1 := (i * (tube_segments + 1) + j)%Z in
       let v2 := (v1 + 1)%Z in
       let v3 := (v1 + (tube_segments + 1))%Z in
       let v4 := (v3 + 1)%Z in
       faces m !! face_index tube_segments i j =
       Some ((v1 + 1)%Z, (v2 + 1)%Z, (v4 + 1)%Z, (v3 + 1)%Z)) /\
    (forall f : Face,
       f ∈ faces m ->
       exists i j : Z,
         (0 <= i < path_segments)%Z /\ (0 <= j < tube_segments)%Z /\
         f = quad tube_segments i j) /\
    (forall a b c d : Z,
       (a, b, c, d) ∈ faces m ->
       let vertex_count := Z.of_nat (length (vertices m)) in
       (1 <= a <= vertex_count)%Z /\ (1 <= b <= vertex_count)%Z /\
       (1 <= c <= vertex_count)%Z /\ (1 <= d <= vertex_count)%Z /\
       a <> b /\ a <> c /\ a <> d /\ b <> c /\ b <> d /\ c <> d).
Proof.
  intros (_ & _ & Hp & Ht).
  eexists. split; [apply build_mesh_ok; lia |].
  cbn [vertices normals faces]. split; [| split].
  - intros i j Hi Hj. cbn zeta. unfold face_index.
    rewrite lookup_grid by assumption. reflexivity.
  - intros f Hf. now apply elem_of_grid in Hf.
  - intros a b c d Hf. cbn zeta. rewrite length_grid.
    apply elem_of_grid in Hf as (i & j & Hi & Hj & Hq).
    unfold quad in Hq. cbn zeta in Hq. injection Hq as -> -> -> ->.
    assert (Z.of_nat (Z.to_nat (path_segments + 1) * Z.to_nat (tube_segments + 1))
            = ((path_segments + 1) * (tube_segments + 1))%Z) as -> by nia.
    repeat split; nia.
Qed.

Lemma face_indices_witness :
  valid_configuration 3 2 4 4 /\
  exists m : Mesh,
    build_mesh 3 2 4 4 1 0.3 = Ok m /\
    faces m !! 0%nat = Some (1, 2, 7, 6)%Z /\
    faces m !! 15%nat = Some (19, 20, 25, 24)%Z.
Proof.
  split; [unfold valid_configuration; lia |].
  destruct (face_indices 3 2 4 4 1 0.3) as (m & Hm & Hface & _).
  { unfold valid_configuration. lia. }
  exists m. split; [exact Hm |]. split.
  - apply (Hface 0%Z 0%Z); lia.
  - apply (Hface 3%Z 3%Z); lia.
Defined.

(** ** Seams *)





(** ** Positions *)

(** C8.  For every valid configuration and every [t], the path position is
    [x = cos(p t) (R + r' cos(q t))], [y = sin(p t) (R + r' cos(q t))],
    [z = r' sin(q t)] with [R = torus_radius] and [r' = 2 tube_radius]; every
    vertex of ring [i] is that position at the parameter of ring [i], plus
    [tube_radius] times its normal; and for [torus_radius = 1.0],
    [tube_radius = 0.3] the first sample is [(1.6, 0, 0)]. *)
Theorem position_formula (p q path_segments tube_segments : Z)
    (torus_radius tube_radius : R) :
  valid_configuration p q path_segments tube_segments ->
  (forall t : R,
     let r' := (2 * tube_radius)%R in
     calculate_position p q torus_radius tube_radius t =
     (cos (IZR p * t) * (torus_radius + r' * cos (IZR q * t)),
      sin (IZR p * t) * (torus_radius + r' * cos (IZR q * t)),
      r' * sin (IZR q * t))%R) /\
  (exists m : Mesh,
     build_mesh p q path_segments tube_segments torus_radius tube_radius = Ok m /\
     forall i j : Z,
       (0 <= i <= path_segments)%Z -> (0 <= j <= tube_segments)%Z ->
       exists (f : R) (v n : Vec3),
         int_truediv i path_segments = Ok f /\
         vertices m !! vertex_index tube_segments i j = Some v /\
         normals m !! vertex_index tube_segments i j = Some n /\
         let pos := calculate_position p q torus_radius tube_radius (f * 2 * PI) in
         v = (item0 pos + tube_radius * item0 n,
              item1 pos + tube_radius * item1 n,
              item2 pos + tube_radius * item2 n)%R) /\
  (torus_radius = 1.0%R -> tube_radius = 0.3%R ->
   exists f : R,
     int_truediv 0 path_segments = Ok f /\
     calculate_position p q torus_radius tube_radius (f * 2 * PI) = (1.6, 0, 0)%R).
Proof.
  intros (_ & _ & Hp & Ht). split; [| split].
  - intros t r'. subst r'. unfold calculate_position. cbv zeta.
    f_equal; [f_equal |]; ring.
  - eexists. split; [apply build_mesh_ok; lia |].
    cbn [vertices normals]. intros i j Hi Hj.
    exists (IZR i / IZR path_segments)%R. do 2 eexists.
    split; [apply int_truediv_nonzero; lia |]. unfold vertex_index.
    split; [apply lookup_grid; lia |].
    split; [apply lookup_grid; lia |].
    reflexivity.
  - intros -> ->. exists (IZR 0 / IZR path_segments)%R.
    split; [apply int_truediv_nonzero; lia |].
    replace (0 / IZR path_segments * 2 * PI)%R with 0%R by (unfold Rdiv; ring).
    unfold calculate_position. cbv zeta.
    rewrite !Rmult_0_r, cos_0, sin_0. f_equal; [f_equal |]; lra.
Qed.

Lemma position_formula_witness :
  valid_configuration 3 2 4 4 /\
  exists f : R,
    int_truediv 0 4 = Ok f /\
    calculate_position 3 2 1.0 0.3 (f * 2 * PI) = (1.6, 0, 0)%R.
Proof.
  split; [unfold valid_configuration; lia |].
  apply (position_formula 3 2 4 4 1.0 0.3); [unfold valid_configuration; lia | | ];
    reflexivity.
Defined.

(** * Further properties of the faces *)

(** ** Topology *)

Section Topology.

Open Scope Z_scope.

Lemma lookup_grid_inv {A : Type} (g : Z -> Z -> A) (rows cols : Z) (n : nat) (x : A) :
  grid g rows cols !! n = Some x ->
  exists i j : Z,
    0 <= i < rows /\ 0 <= j < cols /\ n = Z.to_nat (i * cols + j) /\ x = g i j.
Proof.
  intros Hx. pose proof (lookup_lt_Some _ _ _ Hx) as Hn.
  rewrite length_grid in Hn.
  assert (0 < cols) as Hc by nia. assert (0 < rows) as Hr by nia.
  pose proof (Z.div_mod (Z.of_nat n) cols ltac:(lia)) as Hdm.
  pose proof (Z.mod_pos_bound (Z.of_nat n) cols Hc) as Hm.
  assert (0 <= Z.of_nat n / cols) as Hd by (apply Z.div_pos; lia).
  set (i := Z.of_nat n / cols) in *. set (j := Z.of_nat n mod cols) in *.
  assert (i < rows) as Hi by nia.
  exists i, j. split; [lia |]. split; [lia |].
  assert (n = Z.to_nat (i * cols + j)) as Hnij by lia.
  split; [exact Hnij |].
  rewrite Hnij, lookup_grid in Hx by lia. now injection Hx.
Qed.

(** A directed edge determines the cell of its face. *)
Lemma edges_quad_inj (tube_segments i j i' j' : Z) (e : Z * Z) :
  1 <= tube_segments ->
  0 <= j < tube_segments -> 0 <= j' < tube_segments ->
  e ∈ edges (quad tube_segments i j) -> e ∈ edges (quad tube_segments i' j') ->
  i = i' /\ j = j'.
Proof.
  intros Ht Hj Hj' He He'. unfold quad, edges in He, He'. cbv zeta in He, He'.
  set (n := i * (tube_segments + 1) + j) in *.
  set (n' := i' * (tube_segments + 1) + j') in *.
  assert (n = n') as Hn.
  { destruct e as [x y].
    rewrite !elem_of_cons, elem_of_nil in He, He'.
    destruct He as [He | [He | [He | [He | []]]]];
      destruct He' as [He' | [He' | [He' | [He' | []]]]];
      injection He as Hx Hy; injection He' as Hx' Hy'; lia. }
  subst n n'.
  assert (i = i') as Hi by (destruct (Z.lt_trichotomy i i') as [H | [H | H]]; nia).
  subst i'. split; [reflexivity | lia].
Qed.

(** The sizes of a mesh that was built. *)
Lemma mesh_size (p q path_segments tube_segments : Z) (torus_radius tube_radius : R)
    (m : Mesh) :
  1 <= path_segments -> 1 <= tube_segments ->
  build_mesh p q path_segments tube_segments torus_radius tube_radius = Ok m ->
  Z.of_nat (length (vertices m)) = (path_segments + 1) * (tube_segments + 1) /\
  Z.of_nat (length (normals m)) = (path_segments + 1) * (tube_segments + 1) /\
  Z.of_nat (length (faces m)) = path_segments * tube_segments.
Proof.
  intros Hp Ht Hm. rewrite build_mesh_ok in Hm by lia.
  injection Hm as <-. cbn [vertices normals faces]. rewrite !length_grid.
  repeat split; nia.
Qed.

End Topology.

(** X9.  In every mesh with at least one segment in each direction no vertex
    is left unused: each vertex index from [1] to [vertex_count] is a corner
    of some face. *)
Theorem every_vertex_in_a_face (p q path_segments tube_segments : Z)
    (torus_radius tube_radius : R) :
  (1 <= path_segments)%Z -> (1 <= tube_segments)%Z ->
  exists m : Mesh,
    build_mesh p q path_segments tube_segments torus_radius tube_radius = Ok m /\
    forall k : Z,
      (1 <= k <= Z.of_nat (length (vertices m)))%Z ->
      exists f : Face, f ∈ faces m /\ k ∈ corners f.
Proof.
  intros Hp Ht.
  eexists. split; [apply build_mesh_ok; lia |].
  cbn [vertices faces]. intros k Hk. rewrite length_grid in Hk.
  assert (1 <= k <= (path_segments + 1) * (tube_segments + 1))%Z as Hk' by nia.
  clear Hk.
  pose proof (Z.div_mod (k - 1) (tube_segments + 1) ltac:(lia)) as Hdm.
  pose proof (Z.mod_pos_bound (k - 1) (tube_segments + 1) ltac:(lia)) as Hm.
  assert (0 <= (k - 1) / (tube_segments + 1))%Z as Hd by (apply Z.div_pos; lia).
  set (i := ((k - 1) / (tube_segments + 1))%Z) in *.
  set (j := ((k - 1) mod (tube_segments + 1))%Z) in *.
  assert (i <= path_segments)%Z as Hi by nia.
  destruct (Z_lt_dec i path_segments) as [Hil | Hil];
    destruct (Z_lt_dec j tube_segments) as [Hjl | Hjl].
  - exists (quad tube_segments i j). split.
    + apply elem_of_grid. exists i, j. repeat split; lia.
    + unfold quad, corners. cbv zeta. rewrite !elem_of_cons. left. lia.
  - exists (quad tube_segments i (tube_segments - 1)). split.
    + apply elem_of_grid. exists i, (tube_segments - 1)%Z. repeat split; lia.
    + unfold quad, corners. cbv zeta. rewrite !elem_of_cons. right. left. lia.
  - exists (quad tube_segments (path_segments - 1) j). split.
    + apply elem_of_grid. exists (path_segments - 1)%Z, j. repeat split; lia.
    + unfold quad, corners. cbv zeta. rewrite !elem_of_cons. right. right. right. left. nia.
  - exists (quad tube_segments (path_segments - 1) (tube_segments - 1)). split.
    + apply elem_of_grid. exists (path_segments - 1)%Z, (tube_segments - 1)%Z.
      repeat split; lia.
    + unfold quad, corners. cbv zeta. rewrite !elem_of_cons. right. right. left. nia.
Qed.

Lemma every_vertex_in_a_face_witness :
  (1 <= 1)%Z /\ (1 <= 1)%Z /\
  exists m : Mesh,
    build_mesh 3 2 1 1 1 0.3 = Ok m /\
    exists f : Face, f ∈ faces m /\ 4%Z ∈ corners f.
Proof.
  split; [lia |]. split; [lia |].
  destruct (every_vertex_in_a_face 3 2 1 1 1 0.3) as (m & Hm & Hcover); [lia | lia |].
  exists m. split; [exact Hm |].
  apply Hcover.
  destruct (mesh_size 3 2 1 1 1 0.3 m) as [Hv _]; [lia | lia | exact Hm |].
  rewrite Hv. lia.
Defined.

(** X10.  The faces are consistently oriented: in every mesh with at least
    one segment in each direction no directed edge [(x, y)] belongs to two
    faces; in particular no face is emitted twice. *)
Theorem directed_edges_unique (p q path_segments tube_segments : Z)
    (torus_radius tube_radius : R) :
  (1 <= path_segments)%Z -> (1 <= tube_segments)%Z ->
  exists m : Mesh,
    build_mesh p q path_segments tube_segments torus_radius tube_radius = Ok m /\
    forall (n1 n2 : nat) (f1 f2 : Face) (e : Z * Z),
      faces m !! n1 = Some f1 -> faces m !! n2 = Some f2 ->
      e ∈ edges f1 -> e ∈ edges f2 -> n1 = n2.
Proof.
  intros Hp Ht.
  eexists. split; [apply build_mesh_ok; lia |].
  cbn [faces]. intros n1 n2 f1 f2 e H1 H2 He1 He2.
  apply lookup_grid_inv in H1 as (i & j & Hi & Hj & -> & ->).
  apply lookup_grid_inv in H2 as (i' & j' & Hi' & Hj' & -> & ->).
  destruct (edges_quad_inj tube_segments i j i' j' e Ht Hj Hj' He1 He2) as [-> ->].
  reflexivity.
Qed.

Lemma directed_edges_unique_witness :
  (1 <= 2)%Z /\ (1 <= 2)%Z /\
  exists m : Mesh,
    build_mesh 3 2 2 2 1 0.3 = Ok m /\
    forall (n1 n2 : nat) (f1 f2 : Face) (e : Z * Z),
      faces m !! n1 = Some f1 -> faces m !! n2 = Some f2 ->
      e ∈ edges f1 -> e ∈ edges f2 -> n1 = n2.
Proof.
  split; [lia |]. split; [lia |].
  apply (directed_edges_unique 3 2 2 2 1 0.3); lia.
Defined.

(** X11.  Neighbouring faces traverse the edge they share in opposite
    directions: the face of cell [(i, j)] and the face of cell [(i, j+1)],
    and likewise the faces of cells [(i, j)] and [(i+1, j)], have an edge
    [(x, y)] in the one and [(y, x)] in the other. *)
Theorem shared_edges_reversed (p q path_segments tube_segments : Z)
    (torus_radius tube_radius : R) :
  (1 <= path_segments)%Z -> (1 <= tube_segments)%Z ->
  exists m : Mesh,
    build_mesh p q path_segments tube_segments torus_radius tube_radius = Ok m /\
    (forall i j : Z,
       (0 <= i < path_segments)%Z -> (0 <= j)%Z -> (j + 1 < tube_segments)%Z ->
       exists (f1 f2 : Face) (x y : Z),
         faces m !! face_index tube_segments i j = Some f1 /\
         faces m !! face_index tube_segments i (j + 1) = Some f2 /\
         (x, y) ∈ edges f1 /\ (y, x) ∈ edges f2) /\
    (forall i j : Z,
       (0 <= i)%Z -> (i + 1 < path_segments)%Z -> (0 <= j < tube_segments)%Z ->
       exists (f1 f2 : Face) (x y : Z),
         faces m !! face_index tube_segments i j = Some f1 /\
         faces m !! face_index tube_segments (i + 1) j = Some f2 /\
         (x, y) ∈ edges f1 /\ (y, x) ∈ edges f2).
Proof.
  intros Hp Ht.
  eexists. split; [apply build_mesh_ok; lia |].
  cbn [faces]. unfold face_index. split.
  - intros i j Hi Hj Hj1.
    exists (quad tube_segments i j), (quad tube_segments i (j + 1)).
    exists (i * (tube_segments + 1) + j + 1 + 1)%Z,
           (i * (tube_segments + 1) + j + (tube_segments + 1) + 1 + 1)%Z.
    split; [apply lookup_grid; lia |]. split; [apply lookup_grid; lia |].
    unfold quad, edges. cbv zeta. rewrite !elem_of_cons. split.
    + right. left. reflexivity.
    + right. right. right. left. f_equal; lia.
  - intros i j Hi Hi1 Hj.
    exists (quad tube_segments i j), (quad tube_segments (i + 1) j).
    exists (i * (tube_segments + 1) + j + (tube_segments + 1) + 1 + 1)%Z,
           (i * (tube_segments + 1) + j + (tube_segments + 1) + 1)%Z.
    split; [apply lookup_grid; lia |]. split; [apply lookup_grid; lia |].
    unfold quad, edges. cbv zeta. rewrite !elem_of_cons. split.
    + right. right. left. reflexivity.
    + left. f_equal; lia.
Qed.

Lemma shared_edges_reversed_witness :
  (1 <= 2)%Z /\ (1 <= 2)%Z /\
  exists m : Mesh,
    build_mesh 3 2 2 2 1 0.3 = Ok m /\
    exists (f1 f2 : Face) (x y : Z),
      faces m !! 0%nat = Some f1 /\ faces m !! 1%nat = Some f2 /\
      (x, y) ∈ edges f1 /\ (y, x) ∈ edges f2.
Proof.
  split; [lia |]. split; [lia |].
  destruct (shared_edges_reversed 3 2 2 2 1 0.3) as (m & Hm & Hj & _); [lia | lia |].
  exists m. split; [exact Hm |].
  apply (Hj 0%Z 0%Z); lia.
Defined.

(** * Faces and the vertices they name *)

(** X18.  In every mesh with at least one segment in each direction, the
    face of cell [(i, j)] names, in this order, the vertices [(i, j)],
    [(i, j+1)], [(i+1, j+1)] and [(i+1, j)] of the grid, one-based; each of
    the four indices refers to a stored vertex and to a stored normal, so
    every [a//a] of a face line points at lines that were written. *)
Theorem face_connects_rings (p q path_segments tube_segments : Z)
    (torus_radius tube_radius : R) :
  (1 <= path_segments)%Z -> (1 <= tube_segments)%Z ->
  exists m : Mesh,
    build_mesh p q path_segments tube_segments torus_radius tube_radius = Ok m /\
    forall i j : Z,
      (0 <= i < path_segments)%Z -> (0 <= j < tube_segments)%Z ->
      exists a b c d : Z,
        faces m !! face_index tube_segments i j = Some (a, b, c, d) /\
        Z.to_nat (a - 1) = vertex_index tube_segments i j /\
        Z.to_nat (b - 1) = vertex_index tube_segments i (j + 1) /\
        Z.to_nat (c - 1) = vertex_index tube_segments (i + 1) (j + 1) /\
        Z.to_nat (d - 1) = vertex_index tube_segments (i + 1) j /\
        (1 <= a)%Z /\ (1 <= b)%Z /\ (1 <= c)%Z /\ (1 <= d)%Z /\
        forall k : Z,
          k ∈ [a; b; c; d] ->
          is_Some (vertices m !! Z.to_nat (k - 1)) /\
          is_Some (normals m !! Z.to_nat (k - 1)).
Proof.
  intros Hp Ht.
  eexists. split; [apply build_mesh_ok; lia |].
  cbn [vertices normals faces]. intros i j Hi Hj.
  exists (i * (tube_segments + 1) + j + 1)%Z,
         (i * (tube_segments + 1) + j + 1 + 1)%Z,
         (i * (tube_segments + 1) + j + (tube_segments + 1) + 1 + 1)%Z,
         (i * (tube_segments + 1) + j + (tube_segments + 1) + 1)%Z.
  unfold face_index, vertex_index.
  split; [rewrite lookup_grid by lia; reflexivity |].
  repeat (split; [f_equal; lia |]).
  repeat (split; [nia |]).
  intros k Hk. rewrite !elem_of_cons, elem_of_nil in Hk.
  assert (exists i' j' : Z,
            (0 <= i' < path_segments + 1)%Z /\ (0 <= j' < tube_segments + 1)%Z /\
            Z.to_nat (k - 1) = Z.to_nat (i' * (tube_segments + 1) + j')) as Hcell.
  { destruct Hk as [-> | [-> | [-> | [-> | []]]]].
    - exists i, j. repeat split; lia.
    - exists i, (j + 1)%Z. repeat split; lia.
    - exists (i + 1)%Z, (j + 1)%Z. repeat split; lia.
    - exists (i + 1)%Z, j. repeat split; lia. }
  destruct Hcell as (i' & j' & Hi' & Hj' & ->).
  rewrite !lookup_grid by assumption. split; eexists; reflexivity.
Qed.

Lemma face_connects_rings_witness :
  (1 <= 4)%Z /\ (1 <= 4)%Z /\
  exists m : Mesh,
    build_mesh 3 2 4 4 1 0.3 = Ok m /\
    exists a b c d : Z,
      faces m !! 15%nat = Some (a, b, c, d) /\
      Z.to_nat (a - 1) = 18%nat /\ Z.to_nat (b - 1) = 19%nat /\
      Z.to_nat (c - 1) = 24%nat /\ Z.to_nat (d - 1) = 23%nat.
Proof.
  split; [lia |]. split; [lia |].
  destruct (face_connects_rings 3 2 4 4 1 0.3) as (m & Hm & Hface); [lia | lia |].
  exists m. split; [exact Hm |].
  destruct (Hface 3%Z 3%Z) as (a & b & c & d & Hf & Ha & Hb & Hc & Hd & _); [lia | lia |].
  exists a, b, c, d. auto.
Defined.

(** * Properties of the calibration report *)

Section CalibrationLoops.

Variable path_join : string -> string -> string.
Variable str_lower : string -> string.
Variable format_1f : R -> string.

Lemma length_filter_split {A : Type} (f : A -> bool) (l : list A) :
  (length (List.filter f l) + length (List.filter (fun x => negb (f x)) l))%nat = length l.
Proof.
  induction l as [| x l IH]; [reflexivity |].
  cbn [List.filter]. destruct (f x); cbn [negb length]; lia.
Qed.

Lemma filter_app_bool {A : Type} (f : A -> bool) (l1 l2 : list A) :
  List.filter f (l1 ++ l2) = List.filter f l1 ++ List.filter f l2.
Proof.
  induction l1 as [| x l1 IH]; [reflexivity |].
  cbn [app List.filter]. destruct (f x); cbn [app]; now rewrite IH.
Qed.

(** The paths one category looks for. *)
Local Abbreviation paths_of category_path tests :=
  (map (fun test : string * string => path_join category_path (fst test +:+ ".png"))
       tests).

(** The inner loop counts the files it finds, appends the paths it misses
    and prints one line for each test. *)
Lemma tests_loop (category_path : string) (tests : list (string * string)) :
  forall (tally : Tally) (w : World),
  exists lines : list string,
    length lines = length tests /\
    fold_left (test_body path_join format_1f category_path) tests (tally, w) =
    (mkTally
       (total_files tally +
        Z.of_nat (length (List.filter (fun x => os_path_exists x w)
                            (paths_of category_path tests))))
       (missing_files tally ++
        List.filter (fun x => negb (os_path_exists x w)) (paths_of category_path tests)),
     mkWorld (files w) (denied w) (stdout w ++ lines)).
Proof.
  induction tests as [| [filename description] tests IH]; intros tally w.
  - exists []. split; [reflexivity |]. cbn [fold_left map List.filter length].
    rewrite Z.add_0_r, !app_nil_r. now destruct tally, w.
  - cbn [fold_left map List.filter fst]. unfold test_body at 2.
    destruct (os_path_exists _ w) eqn:Hex.
    + edestruct IH as (lines & Hlen & ->).
      eexists (_ :: lines). split; [cbn [length]; now rewrite Hlen |].
      cbn [total_files missing_files files denied stdout print negb length].
      unfold os_path_exists, print. cbn [files denied stdout].
      rewrite <- app_assoc. f_equal. f_equal. lia.
    + edestruct IH as (lines & Hlen & ->).
      eexists (_ :: lines). split; [cbn [length]; now rewrite Hlen |].
      cbn [total_files missing_files files denied stdout print negb length].
      unfold os_path_exists, print. cbn [files denied stdout].
      rewrite <- !app_assoc. reflexivity.
Qed.

(** The outer loop does the same over all categories. *)
Lemma categories_loop (cats : list (string * list (string * string))) :
  forall (tally : Tally) (w : World),
  let paths :=
    flat_map
      (fun item : string * list (string * string) =>
         paths_of (path_join calibration_dir (str_lower (fst item))) (snd item))
      cats in
  exists lines : list string,
    length lines = (2 * length cats + length paths)%nat /\
    fold_left (category_body path_join str_lower format_1f) cats (tally, w) =
    (mkTally
       (total_files tally +
        Z.of_nat (length (List.filter (fun x => os_path_exists x w) paths)))
       (missing_files tally ++ List.filter (fun x => negb (os_path_exists x w)) paths),
     mkWorld (files w) (denied w) (stdout w ++ lines)).
Proof.
  induction cats as [| [category tests] cats IH]; intros tally w paths; subst paths.
  - exists []. split; [reflexivity |]. cbn [fold_left flat_map List.filter length].
    rewrite Z.add_0_r, !app_nil_r. now destruct tally, w.
  - cbn [fold_left flat_map fst snd]. unfold category_body at 2.
    edestruct (tests_loop (path_join calibration_dir (str_lower category)) tests)
      as (lines1 & Hlen1 & ->).
    edestruct IH as (lines2 & Hlen2 & ->).
    exists ([newline +:+ category; str_mul "-" 80] ++ lines1 ++ lines2).
    split.
    + rewrite !length_app, Hlen1, Hlen2, length_map. cbn [length]. lia.
    + cbn [total_files missing_files files denied stdout print].
      unfold os_path_exists, print. cbn [files denied stdout].
      rewrite !filter_app_bool, !length_app, <- !app_assoc. cbn [app].
      f_equal. f_equal. lia.
Qed.

End CalibrationLoops.

Section CalibrationReport.

Variable path_join : string -> string -> string.
Variable str_lower : string -> string.
Variable format_1f : R -> string.

Lemma filter_negb_nil {A : Type} (f : A -> bool) (l : list A) :
  List.filter (fun x => negb (f x)) l = [] <-> forall x, x ∈ l -> f x = true.
Proof.
  induction l as [| y l IH]; cbn [List.filter].
  - split; [intros _ x Hx; inversion Hx | reflexivity].
  - destruct (f y) eqn:Hy; cbn [negb].
    + rewrite IH. split.
      * intros Hl x Hx. apply elem_of_cons in Hx as [-> | Hx]; auto.
      * intros Hl x Hx. apply Hl. now right.
    + split; [discriminate |]. intros Hl.
      specialize (Hl y ltac:(left)). congruence.
Qed.

Lemma fold_left_print {A : Type} (g : A -> string) (l : list A) :
  forall w : World,
  fold_left (fun w x => mkWorld (files w) (denied w) (stdout w ++ [g x])) l w =
  mkWorld (files w) (denied w) (stdout w ++ map g l).
Proof.
  induction l as [| x l IH]; intros w; cbn [fold_left map].
  - rewrite app_nil_r. now destruct w.
  - rewrite IH. cbn [files denied stdout]. now rewrite <- app_assoc.
Qed.

(** The script as one equation: the tally, and the lines it prints. *)
Lemma analyze_calibration_eq (w : World) :
  let paths := expected_paths path_join str_lower in
  let tally :=
    mkTally (Z.of_nat (length (List.filter (fun x => os_path_exists x w) paths)))
            (List.filter (fun x => negb (os_path_exists x w)) paths) in
  exists body : list string,
    length body = 87%nat /\
    analyze_calibration path_join str_lower format_1f w =
    (tally,
     mkWorld (files w) (denied w)
       (stdout w ++ body ++
        [EmptyString; str_mul "=" 80;
         "SUMMARY: " +:+ pretty (total_files tally) +:+ "/63 files found"] ++
        match missing_files tally with
        | [] => []
        | _ :: _ =>
          ("Missing: " +:+ pretty (length (missing_files tally)) +:+ " files")
          :: map (fun f => "  - " +:+ f) (missing_files tally)
        end ++
        [str_mul "=" 80])).
Proof.
  intros paths tally. subst tally. unfold analyze_calibration.
  edestruct (categories_loop path_join str_lower format_1f categories (mkTally 0 []))
    as (lines & Hlen & ->).
  fold (expected_paths path_join str_lower) in *. fold paths in Hlen |- *.
  exists ([str_mul "=" 80; "CALIBRATION SCREENSHOT ANALYSIS"; str_mul "=" 80; EmptyString]
          ++ lines).
  split; [rewrite length_app, Hlen; reflexivity |].
  unfold print_summary, print, os_path_exists.
  cbn [files denied stdout total_files missing_files Z.add app].
  destruct (List.filter (fun x => negb _) paths) as [| f0 fs] eqn:Hmiss.
  - cbn [files denied stdout]. rewrite Z.add_0_l, <- !app_assoc. reflexivity.
  - rewrite fold_left_print. cbn [files denied stdout map].
    rewrite Z.add_0_l, <- !app_assoc. reflexivity.
Qed.

End CalibrationReport.

Section CalibrationLines.

Variable path_join : string -> string -> string.
Variable str_lower : string -> string.
Variable format_1f : R -> string.

Lemma test_line_files (category_path : string) (w w' : World) (test : string * string) :
  files w' = files w ->
  test_line path_join format_1f category_path w' test =
  test_line path_join format_1f category_path w test.
Proof.
  intros Hf. unfold test_line, os_path_exists, os_path_getsize. now rewrite Hf.
Qed.

Lemma tests_loop_lines (category_path : string) (tests : list (string * string)) :
  forall (tally : Tally) (w : World),
  let result := fold_left (test_body path_join format_1f category_path) tests (tally, w) in
  files (snd result) = files w /\
  stdout (snd result) =
    stdout w ++ map (test_line path_join format_1f category_path w) tests.
Proof.
  induction tests as [| [filename description] tests IH]; intros tally w; cbn zeta.
  - cbn [fold_left map snd]. now rewrite app_nil_r.
  - cbn [fold_left map].
    assert (exists tally' : Tally,
              test_body path_join format_1f category_path (tally, w) (filename, description) =
              (tally',
               print (test_line path_join format_1f category_path w (filename, description)) w))
      as [tally' ->].
    { unfold test_body, test_line. cbn [fst snd].
      destruct (os_path_exists _ w); eauto. }
    destruct (IH tally' (print (test_line path_join format_1f category_path w
                                 (filename, description)) w)) as [Hf Ho].
    cbn zeta in Hf, Ho. rewrite Hf, Ho. cbn [print files stdout].
    split; [reflexivity |]. rewrite <- app_assoc. cbn [app].
    rewrite (map_ext _ (test_line path_join format_1f category_path w)); [reflexivity |].
    intros test. now apply test_line_files.
Qed.

Lemma category_lines_files (w w' : World) (item : string * list (string * string)) :
  files w' = files w ->
  category_lines path_join str_lower format_1f w' item =
  category_lines path_join str_lower format_1f w item.
Proof.
  intros Hf. unfold category_lines. f_equal.
  apply map_ext. intros test. now apply test_line_files.
Qed.

Lemma categories_loop_lines (cats : list (string * list (string * string))) :
  forall (tally : Tally) (w : World),
  let result := fold_left (category_body path_join str_lower format_1f) cats (tally, w) in
  files (snd result) = files w /\
  stdout (snd result) =
    stdout w ++ flat_map (category_lines path_join str_lower format_1f w) cats.
Proof.
  induction cats as [| [category tests] cats IH]; intros tally w; cbn zeta.
  - cbn [fold_left flat_map snd]. now rewrite app_nil_r.
  - cbn [fold_left flat_map].
    set (w1 := print (str_mul "-" 80) (print (newline +:+ category) w)).
    change (category_body path_join str_lower format_1f (tally, w) (category, tests))
      with (fold_left (test_body path_join format_1f
                         (path_join calibration_dir (str_lower category)))
              tests (tally, w1)).
    destruct (tests_loop_lines (path_join calibration_dir (str_lower category)) tests
                tally w1) as [Hf1 Ho1].
    cbn zeta in Hf1, Ho1.
    destruct (fold_left (test_body _ _ _) tests (tally, w1)) as [tally2 w2].
    cbn [snd] in Hf1, Ho1.
    destruct (IH tally2 w2) as [Hf Ho]. cbn zeta in Hf, Ho.
    rewrite Hf, Ho, Hf1, Ho1. subst w1. cbn [print files stdout].
    split; [reflexivity |].
    unfold category_lines at 2. cbn [fst snd].
    rewrite <- !app_assoc. cbn [app].
    rewrite (map_ext _ (test_line path_join format_1f
                          (path_join calibration_dir (str_lower category)) w))
      by (intros test; now apply test_line_files).
    rewrite (flat_map_ext _ (category_lines path_join str_lower format_1f w));
      [reflexivity |].
    intros item. now apply category_lines_files.
Qed.

(** Only the heading of a category begins with a line break. *)
Lemma prefix_test_line (category_path : string) (w : World) (test : string * string) :
  String.prefix newline (test_line path_join format_1f category_path w test) = false.
Proof. unfold test_line. cbv zeta. now destruct (os_path_exists _ w). Qed.

Lemma filter_category_lines (w : World) (item : string * list (string * string)) :
  List.filter (String.prefix newline) (category_lines path_join str_lower format_1f w item) =
  [newline +:+ fst item].
Proof.
  unfold category_lines. cbn [app List.filter].
  assert (String.prefix newline (newline +:+ fst item) = true) as ->.
  { change (newline +:+ fst item) with (String (ascii_of_nat 10) (fst item)).
    unfold newline. cbn [String.prefix].
    destruct (ascii_dec _ _); [now destruct (fst item) | contradiction]. }
  change (String.prefix newline (str_mul "-" 80)) with false.
  f_equal. induction (snd item) as [| test tests IH]; [reflexivity |].
  cbn [map List.filter]. now rewrite prefix_test_line.
Qed.

Lemma filter_categories_lines (w : World) (cats : list (string * list (string * string))) :
  List.filter (String.prefix newline)
    (flat_map (category_lines path_join str_lower format_1f w) cats) =
  map (fun item => newline +:+ fst item) cats.
Proof.
  induction cats as [| item cats IH]; [reflexivity |].
  cbn [flat_map map]. now rewrite filter_app_bool, filter_category_lines, IH.
Qed.

End CalibrationLines.

(** X15.  Whatever the files of the environment, the calibration script
    looks for exactly 63 paths; [missing_files] ends as the paths among them
    that do not exist, in the order of the table, and [total_files] as the
    number of those that exist, so that found and missing add up to the 63
    of the summary line; and the script changes no file. *)
Theorem calibration_census (path_join : string -> string -> string)
    (str_lower : string -> string) (format_1f : R -> string) (w : World) :
  let paths := expected_paths path_join str_lower in
  let result := analyze_calibration path_join str_lower format_1f w in
  length paths = 63%nat /\
  missing_files (fst result) = List.filter (fun x => negb (os_path_exists x w)) paths /\
  total_files (fst result) =
    Z.of_nat (length (List.filter (fun x => os_path_exists x w) paths)) /\
  (total_files (fst result) + Z.of_nat (length (missing_files (fst result))) = 63)%Z /\
  files (snd result) = files w /\
  denied (snd result) = denied w.
Proof.
  intros paths result. subst result.
  destruct (analyze_calibration_eq path_join str_lower format_1f w) as (body & _ & ->).
  fold paths. cbn [fst snd total_files missing_files files denied].
  assert (length paths = 63%nat) as Hlen by reflexivity.
  split; [exact Hlen |]. split; [reflexivity |]. split; [reflexivity |].
  split; [| split; reflexivity].
  pose proof (length_filter_split (fun x => os_path_exists x w) paths) as Hsplit.
  lia.
Qed.

(** X16.  The calibration script reports a complete set exactly when nothing
    is missing: [total_files = 63] if and only if [missing_files] is empty,
    if and only if every expected path exists. *)
Theorem calibration_complete_iff (path_join : string -> string -> string)
    (str_lower : string -> string) (format_1f : R -> string) (w : World) :
  let tally := fst (analyze_calibration path_join str_lower format_1f w) in
  (total_files tally = 63%Z <-> missing_files tally = []) /\
  (missing_files tally = [] <->
   forall path : string,
     path ∈ expected_paths path_join str_lower -> is_Some (files w !! path)).
Proof.
  intros tally. subst tally.
  destruct (analyze_calibration_eq path_join str_lower format_1f w) as (body & _ & ->).
  cbn [fst total_files missing_files].
  set (paths := expected_paths path_join str_lower).
  assert (length paths = 63%nat) as Hlen by reflexivity.
  pose proof (length_filter_split (fun x => os_path_exists x w) paths) as Hsplit.
  cbv beta in Hsplit.
  split.
  - split.
    + intros Htotal. apply length_zero_iff_nil. lia.
    + intros Hnil. rewrite Hnil in Hsplit. cbn [length] in Hsplit. lia.
  - rewrite filter_negb_nil. unfold os_path_exists.
    split; intros Hall path Hpath.
    + specialize (Hall path Hpath). now apply bool_decide_eq_true in Hall.
    + apply bool_decide_eq_true. now apply Hall.
Qed.

(** X17.  The calibration report is printed by these calls of [print], in
    this order and no others: the 87 of the heading and the table
    ([table_lines]: a rule, the title, a rule, an empty string, and for each
    of the ten categories its heading, a rule and one line for each of its
    tests), an empty string, a rule and the summary, then, when and only
    when some file is missing, one for the number of missing files and one
    for each of them, and a closing rule.  Among the 87, exactly the ten
    category headings begin with a line break: each of them prints an empty
    line before the name of the category. *)
Theorem calibration_report_shape (path_join : string -> string -> string)
    (str_lower : string -> string) (format_1f : R -> string) (w : World) :
  let result := analyze_calibration path_join str_lower format_1f w in
  let tally := fst result in
  let table := table_lines path_join str_lower format_1f w in
  stdout (snd result) =
    stdout w ++ table ++
    [EmptyString; str_mul "=" 80;
     "SUMMARY: " +:+ pretty (total_files tally) +:+ "/63 files found"] ++
    match missing_files tally with
    | [] => []
    | _ :: _ =>
      ("Missing: " +:+ pretty (length (missing_files tally)) +:+ " files")
      :: map (fun f => "  - " +:+ f) (missing_files tally)
    end ++
    [str_mul "=" 80] /\
  length table = 87%nat /\
  List.filter (String.prefix newline) table =
    map (fun item => newline +:+ fst item) categories.
Proof.
  intros result tally table. subst tally result table. split; [| split].
  - unfold analyze_calibration.
    set (w1 := print EmptyString (print (str_mul "=" 80)
                 (print "CALIBRATION SCREENSHOT ANALYSIS" (print (str_mul "=" 80) w)))).
    destruct (categories_loop_lines path_join str_lower format_1f categories
                (mkTally 0 []) w1) as [_ Ho]. cbn zeta in Ho.
    destruct (fold_left _ categories _) as [tally w2]. cbn [snd fst] in *.
    unfold print_summary, table_lines.
    destruct (missing_files tally) as [| f0 fs].
    + cbn [print stdout]. rewrite Ho. subst w1. cbn [print stdout].
      rewrite <- !app_assoc. cbn [app].
      rewrite (flat_map_ext _ (category_lines path_join str_lower format_1f w));
        [reflexivity |].
      intros item. now apply category_lines_files.
    + unfold print. rewrite fold_left_print. cbn [stdout files denied].
      rewrite Ho. subst w1. unfold print. cbn [stdout].
      rewrite <- !app_assoc. cbn [app map].
      rewrite (flat_map_ext _ (category_lines path_join str_lower format_1f w));
        [reflexivity |].
      intros item. now apply category_lines_files.
  - unfold table_lines. rewrite length_app. cbn [length].
    unfold category_lines. reflexivity.
  - unfold table_lines. rewrite filter_app_bool, filter_categories_lines. reflexivity.
Qed.

(** * The generator on binary64: properties *)

Module Binary64Facts.

Import Floats.
Import Binary64.
Local Open Scope float_scope.
Set Warnings "-inexact-float".

(** ** Exceptions of a sequence of operations *)

Lemma raises_only_Ok {A : Type} (P : exn -> Prop) (a : A) : raises_only P (Ok a).
Proof. intros e He. discriminate. Qed.

Lemma raises_only_Raise {A : Type} (P : exn -> Prop) (e : exn) :
  P e -> raises_only P (@Raise A e).
Proof. intros HP e' He'. now injection He' as <-. Qed.

Lemma raises_only_bind {A B : Type} (P : exn -> Prop) (m : result A)
    (k : A -> result B) :
  raises_only P m -> (forall a : A, m = Ok a -> raises_only P (k a)) ->
  raises_only P (bind m k).
Proof.
  intros Hm Hk. destruct m as [a | e]; cbn [bind].
  - now apply Hk.
  - intros e' He'. injection He' as <-. now apply Hm.
Qed.

Lemma numeric_OverflowError : numeric OverflowError.
Proof. now left. Qed.

Lemma numeric_ValueError : numeric ValueError.
Proof. now right. Qed.

(** ** The primitives *)

Lemma int_to_float_numeric (z : Z) : raises_only numeric (int_to_float z).
Proof.
  unfold int_to_float.
  destruct (binary_normalize prec emax z 0 false);
    first [apply raises_only_Ok | apply raises_only_Raise, numeric_OverflowError].
Qed.

Lemma to_float_numeric (a : num) : raises_only numeric (to_float a).
Proof. destruct a; [apply int_to_float_numeric | apply raises_only_Ok]. Qed.

Lemma math_1_numeric (func : float -> float) (x : float) :
  raises_only numeric (math_1 func x).
Proof.
  unfold math_1. cbv zeta.
  destruct (is_nan (func x) && negb (is_nan x))%bool;
    [apply raises_only_Raise, numeric_ValueError |].
  destruct (is_infinity (func x) && is_finite x)%bool;
    [apply raises_only_Raise, numeric_ValueError | apply raises_only_Ok].
Qed.

Lemma float_pow2_numeric (libm : Libm) (x : float) :
  raises_only numeric (float_pow2 libm x).
Proof.
  unfold float_pow2.
  repeat match goal with
         | |- raises_only _ (if ?b then _ else _) => destruct b
         | |- raises_only _ (Ok _) => apply raises_only_Ok
         | |- raises_only _ (Raise _) => apply raises_only_Raise, numeric_OverflowError
         | _ => progress cbv zeta
         end.
Qed.

Create HintDb raises.

#[local] Hint Resolve raises_only_Ok numeric_OverflowError numeric_ValueError
  int_to_float_numeric to_float_numeric math_1_numeric float_pow2_numeric : raises.

(** One step of a proof that a straight-line computation raises only
    exceptions of a given kind. *)
Ltac raises_step :=
  match goal with
  | |- raises_only _ (Ok _) => apply raises_only_Ok
  | |- raises_only _ (bind _ _) => apply raises_only_bind; [| intros ? _]
  | |- raises_only _ (if ?b then _ else _) => destruct b eqn:?
  | |- raises_only _ (match ?x with Int _ => _ | Float _ => _ end) => destruct x
  | |- raises_only _ (let '(_, _) := ?x in _) => destruct x
  | |- raises_only _ _ => progress cbv zeta
  | |- raises_only _ _ => solve [eauto with raises]
  end.

Lemma int_mul_float_numeric (n : Z) (x : float) :
  raises_only numeric (int_mul_float n x).
Proof. unfold int_mul_float. repeat raises_step. Qed.

Lemma math_cos_numeric (libm : Libm) (x : float) : raises_only numeric (math_cos libm x).
Proof. apply math_1_numeric. Qed.

Lemma math_sin_numeric (libm : Libm) (x : float) : raises_only numeric (math_sin libm x).
Proof. apply math_1_numeric. Qed.

Lemma math_sqrt_numeric (a : num) : raises_only numeric (math_sqrt a).
Proof. unfold math_sqrt. repeat raises_step. Qed.

Lemma num_mul_numeric (a b : num) : raises_only numeric (num_mul a b).
Proof. unfold num_mul. repeat raises_step. Qed.

Lemma num_add_numeric (a b : num) : raises_only numeric (num_add a b).
Proof. unfold num_add. repeat raises_step. Qed.

Lemma num_sub_numeric (a b : num) : raises_only numeric (num_sub a b).
Proof. unfold num_sub. repeat raises_step. Qed.

Lemma num_pow2_numeric (libm : Libm) (a : num) : raises_only numeric (num_pow2 libm a).
Proof. unfold num_pow2. repeat raises_step. Qed.

#[local] Hint Resolve int_mul_float_numeric math_cos_numeric math_sin_numeric
  math_sqrt_numeric num_mul_numeric num_add_numeric num_sub_numeric
  num_pow2_numeric : raises.

(** *** Divisions *)

Lemma int_truediv_numeric (a b : Z) : b <> 0%Z -> raises_only numeric (int_truediv a b).
Proof.
  intros Hb. unfold int_truediv.
  destruct (b =? 0)%Z eqn:Hb0; [apply Z.eqb_eq in Hb0; contradiction |].
  destruct (a =? 0)%Z; [apply raises_only_Ok |]. cbv zeta.
  match goal with |- raises_only _ (match ?x with _ => _ end) => destruct x end;
    first [apply raises_only_Ok | apply raises_only_Raise, numeric_OverflowError].
Qed.

(** A length that passed the test [length > 0] is not a zero. *)
Lemma positive_not_zero (l : float) :
  num_lt (Int 0) (Float l) = true -> is_zero l = false.
Proof.
  unfold num_lt, int_compare_float, is_zero. rewrite eqb_spec.
  change (Prim2SF zero) with (S754_zero false).
  destruct (Prim2SF l) as [s | s | | s m e]; cbn; try discriminate; try reflexivity.
  - now destruct s.
  - now destruct s.
Qed.

Lemma float_truediv_positive (a l : float) :
  num_lt (Int 0) (Float l) = true -> float_truediv a l = Ok (a / l).
Proof. intros Hl. unfold float_truediv. now rewrite (positive_not_zero l Hl). Qed.

Lemma num_truediv_positive (a : num) (l : float) :
  num_lt (Int 0) (Float l) = true -> raises_only numeric (num_truediv a (Float l)).
Proof.
  intros Hl. destruct a as [z | f]; cbn [num_truediv to_float].
  - apply raises_only_bind; [apply int_to_float_numeric | intros x _].
    cbn [bind]. rewrite float_truediv_positive by assumption. apply raises_only_Ok.
  - cbn [bind]. rewrite float_truediv_positive by assumption. apply raises_only_Ok.
Qed.


#[local] Hint Resolve num_truediv_positive : raises.

(** ** The nested functions *)

Section Functions.

Variable libm : Libm.
Variables (p q path_segments tube_segments : Z).
Variables (torus_radius tube_radius : float).

Lemma calculate_position_numeric (t : float) :
  raises_only numeric (calculate_position libm p q torus_radius tube_radius t).
Proof. unfold calculate_position. repeat raises_step. Qed.

Lemma derivative_numeric (t : float) :
  raises_only numeric (derivative libm p q torus_radius tube_radius t).
Proof. unfold derivative. repeat raises_step. Qed.

Lemma float_length_numeric (d : fvec) : raises_only numeric (float_length libm d).
Proof. unfold float_length. repeat raises_step. Qed.

Lemma calculate_tangent_numeric (t : float) :
  raises_only numeric (calculate_tangent libm p q torus_radius tube_radius t).
Proof.
  unfold calculate_tangent.
  apply raises_only_bind; [apply derivative_numeric | intros d _].
  apply raises_only_bind; [apply float_length_numeric | intros l _].
  destruct (num_lt (Int 0) (Float l)) eqn:Hl; [| apply raises_only_Ok].
  rewrite !float_truediv_positive by assumption. apply raises_only_Ok.
Qed.

Lemma cross_product_numeric (a b : vec) : raises_only numeric (cross_product a b).
Proof. unfold cross_product. repeat raises_step. Qed.

Lemma num_length_numeric (v : vec) : raises_only numeric (num_length libm v).
Proof. unfold num_length. repeat raises_step. Qed.

Lemma normalize_numeric (v : vec) : raises_only numeric (normalize libm v).
Proof.
  unfold normalize.
  apply raises_only_bind; [apply num_length_numeric | intros l _].
  destruct (num_lt (Int 0) (Float l)) eqn:Hl; [| apply raises_only_Ok].
  repeat raises_step.
Qed.

#[local] Hint Resolve cross_product_numeric normalize_numeric : raises.

Lemma frame_numeric (tangent : vec) : raises_only numeric (frame libm tangent).
Proof. unfold frame. repeat raises_step. Qed.

Lemma combine_numeric (a b : num) (c s : float) : raises_only numeric (combine a b c s).
Proof. unfold combine. repeat raises_step. Qed.

End Functions.


(** ** The loops *)

Lemma grows_bind {A : Type} (n : nat) (st : list fvec * list fvec) (m : result A)
    (k : A -> result (list fvec * list fvec)) :
  raises_only numeric m -> (forall a : A, m = Ok a -> grows n st (k a)) ->
  grows n st (bind m k).
Proof.
  intros Hm Hk. destruct m as [a | e]; cbn [bind].
  - now apply Hk.
  - now apply Hm.
Qed.

Lemma for_each_grows {A : Type} (n : nat)
    (body : A -> list fvec * list fvec -> result (list fvec * list fvec))
    (xs : list A) :
  (forall x st, x ∈ xs -> grows n st (body x st)) ->
  forall st, grows (length xs * n) st (for_each xs body st).
Proof.
  induction xs as [| x xs IH]; intros Hbody st; cbn [for_each length Nat.mul].
  - exists [], []. now rewrite !app_nil_r, <- surjective_pairing.
  - pose proof (Hbody x st ltac:(left)) as Hx.
    destruct (body x st) as [st1 |]; cbn [bind]; [| exact Hx].
    destruct Hx as (vs & ns & -> & Hvs & Hns).
    assert (forall y st, y ∈ xs -> grows n st (body y st)) as Hrest
      by (intros y st' Hy; apply Hbody; now right).
    specialize (IH Hrest (fst st ++ vs, snd st ++ ns)).
    destruct (for_each xs body _) as [st2 |]; [| exact IH].
    destruct IH as (vs' & ns' & -> & Hvs' & Hns'). cbn [fst snd].
    exists (vs ++ vs'), (ns ++ ns').
    rewrite <- !app_assoc, !length_app. repeat split; lia.
Qed.

(** A computation whose continuation always raises raises. *)
Lemma bind_raises {A B : Type} (P : exn -> Prop) (m : result A) (k : A -> result B) :
  raises_only P m ->
  (forall a : A, exists e : exn, k a = Raise e /\ P e) ->
  exists e : exn, bind m k = Raise e /\ P e.
Proof.
  intros Hm Hk. destruct m as [a | e]; cbn [bind]; [apply Hk |].
  exists e. split; [reflexivity | now apply Hm].
Qed.

Lemma raises_only_weaken {A : Type} (P Q : exn -> Prop) (m : result A) :
  (forall e : exn, P e -> Q e) -> raises_only P m -> raises_only Q m.
Proof. intros HPQ Hm e He. apply HPQ, Hm, He. Qed.

Section MeshLoops.

Variable libm : Libm.
Variables (p q path_segments tube_segments : Z).
Variables (torus_radius tube_radius : float).

Lemma tube_body_grows (pos : fvec) (normal1 normal2 : vec) (j : Z)
    (st : list fvec * list fvec) :
  tube_segments <> 0%Z ->
  grows 1 st (tube_body libm tube_segments tube_radius pos normal1 normal2 j st).
Proof.
  intros Ht. unfold tube_body.
  apply grows_bind; [now apply int_truediv_numeric | intros f _]. cbv zeta.
  apply grows_bind; [apply math_cos_numeric | intros cos_v _].
  apply grows_bind; [apply math_sin_numeric | intros sin_v _].
  apply grows_bind; [apply combine_numeric | intros nx _].
  apply grows_bind; [apply combine_numeric | intros ny _].
  apply grows_bind; [apply combine_numeric | intros nz _].
  cbn [grows]. eauto.
Qed.

Lemma ring_body_grows (i : Z) (st : list fvec * list fvec) :
  path_segments <> 0%Z -> tube_segments <> 0%Z ->
  grows (Z.to_nat (tube_segments + 1)) st
    (ring_body libm p q path_segments tube_segments torus_radius tube_radius i st).
Proof.
  intros Hp Ht. unfold ring_body.
  apply grows_bind; [now apply int_truediv_numeric | intros f _]. cbv zeta.
  apply grows_bind; [apply calculate_position_numeric | intros pos _].
  apply grows_bind; [apply calculate_tangent_numeric | intros tangent _].
  apply grows_bind; [apply frame_numeric | intros [normal1 normal2] _].
  rewrite <- (Nat.mul_1_r (Z.to_nat (tube_segments + 1))), <- length_range.
  apply for_each_grows. intros j st' _. now apply tube_body_grows.
Qed.

(** No division of the first ring is defined when [path_segments] is zero. *)
Lemma build_mesh_zero_path :
  path_segments = 0%Z ->
  build_mesh libm p q path_segments tube_segments torus_radius tube_radius =
  Raise ZeroDivisionError.
Proof. intros ->. reflexivity. Qed.

(** No ring is computed when [path_segments] is negative. *)
Lemma build_mesh_negative_path :
  (path_segments < 0)%Z ->
  build_mesh libm p q path_segments tube_segments torus_radius tube_radius =
  Ok (mkMesh [] [] []).
Proof.
  intros Hp. unfold build_mesh.
  rewrite (range_nonpos (path_segments + 1)), (range_nonpos path_segments) by lia.
  reflexivity.
Qed.

(** The first vertex of the first ring is not computed when [tube_segments]
    is zero: its division raises, unless the arithmetic before it has. *)
Lemma build_mesh_zero_tube :
  (0 < path_segments)%Z -> tube_segments = 0%Z ->
  exists e : exn,
    build_mesh libm p q path_segments tube_segments torus_radius tube_radius = Raise e /\
    (e = ZeroDivisionError \/ numeric e).
Proof.
  intros Hp ->. unfold build_mesh.
  destruct (range_pos_head (path_segments + 1)) as [l ->]; [lia |].
  cbn [for_each].
  assert (exists e : exn,
            ring_body libm p q path_segments 0 torus_radius tube_radius 0 ([], []) =
            Raise e /\ (e = ZeroDivisionError \/ numeric e)) as (e & -> & He);
    [| cbn [bind]; eauto].
  assert (forall (A : Type) (m : result A),
            raises_only numeric m ->
            raises_only (fun e => e = ZeroDivisionError \/ numeric e) m) as Hweak
    by (intros A m; apply raises_only_weaken; auto).
  unfold ring_body.
  apply bind_raises; [apply Hweak, int_truediv_numeric; lia | intros f]. cbv zeta.
  apply bind_raises; [apply Hweak, calculate_position_numeric | intros pos].
  apply bind_raises; [apply Hweak, calculate_tangent_numeric | intros tangent].
  apply bind_raises; [apply Hweak, frame_numeric | intros [normal1 normal2]].
  exists ZeroDivisionError. split; [reflexivity | now left].
Qed.

(** The mesh of a configuration with positive segment counts, if the
    arithmetic raises nothing. *)
Lemma build_mesh_positive :
  (0 < path_segments)%Z -> (0 < tube_segments)%Z ->
  match build_mesh libm p q path_segments tube_segments torus_radius tube_radius with
  | Raise e => numeric e
  | Ok m =>
    length (vertices m) = (Z.to_nat (path_segments + 1) * Z.to_nat (tube_segments + 1))%nat /\
    length (normals m) = (Z.to_nat (path_segments + 1) * Z.to_nat (tube_segments + 1))%nat /\
    faces m = grid (quad tube_segments) path_segments tube_segments
  end.
Proof.
  intros Hp Ht. unfold build_mesh. rewrite faces_loop_grid.
  pose proof (for_each_grows (Z.to_nat (tube_segments + 1))
                (ring_body libm p q path_segments tube_segments torus_radius tube_radius)
                (range (path_segments + 1))
                (fun i st _ => ring_body_grows i st ltac:(lia) ltac:(lia))
                ([], [])) as Hloop.
  destruct (for_each _ _ _) as [st |]; cbn [bind]; [| exact Hloop].
  destruct Hloop as (vs & ns & -> & Hvs & Hns).
  rewrite length_range in Hvs, Hns. cbn [vertices normals faces fst snd app].
  auto.
Qed.

End MeshLoops.


(** ** The file *)

Section Files.

Variable faults : Faults.
Variable path : string.

Lemma file_op_touches (op : io_op) : touches_file path (file_op faults path op).
Proof.
  intros w. unfold file_op. cbv zeta.
  destruct (faults path _ op) as [rest |]; cbn [fst snd].
  - repeat split; [now right |]. intros path' Hne. cbn [set_file files].
    now rewrite lookup_insert_ne.
  - split; [now left |]. destruct op; cbn [set_file files denied stdout]; repeat split.
    intros path' Hne. now rewrite lookup_insert_ne.
Qed.

Lemma block_touches (stmts : list (World -> result unit * World)) :
  Forall (touches_file path) stmts -> touches_file path (block stmts).
Proof.
  induction 1 as [| stmt stmts Hstmt _ IH]; intros w; cbn [block].
  - cbn [fst snd]. repeat split. now left.
  - destruct (Hstmt w) as (Hr & Hd & Ho & Hf).
    destruct (stmt w) as [[[] | e] w1]; cbn [fst snd] in *.
    + destruct (IH w1) as (Hr' & Hd' & Ho' & Hf').
      split; [exact Hr' |]. split; [congruence |]. split; [congruence |].
      intros path' Hne. rewrite Hf' by exact Hne. now apply Hf.
    + auto.
Qed.

Lemma block_app (l1 l2 : list (World -> result unit * World)) (w : World) :
  block (l1 ++ l2) w =
  match block l1 w with
  | (Ok _, w') => block l2 w'
  | (Raise e, w') => (Raise e, w')
  end.
Proof.
  revert w. induction l1 as [| stmt l1 IH]; intros w; cbn [app block]; [reflexivity |].
  destruct (stmt w) as [[[] | e] w1]; [apply IH | reflexivity].
Qed.

Lemma writes_touch (chunks : list string) :
  Forall (touches_file path) (writes faults path chunks).
Proof. apply Forall_map, Forall_true. intros s. apply file_op_touches. Qed.

(** Writes that all succeed append their strings to the file. *)
Lemma writes_ok (chunks : list string) :
  forall (w w' : World) (text : string),
  files w !! path = Some text ->
  block (writes faults path chunks) w = (Ok tt, w') ->
  w' = set_file path (text +:+ fold_right String.append EmptyString chunks) w.
Proof.
  induction chunks as [| s chunks IH]; intros w w' text Htext; cbn [writes map block fold_right].
  - intros [= <-]. unfold set_file. rewrite append_empty_r, insert_id by exact Htext.
    now destruct w.
  - unfold file_op at 1. cbv zeta. rewrite Htext.
    change (default EmptyString (Some text)) with text.
    destruct (faults path text (IoWrite s)) as [rest |]; [discriminate |].
    fold (writes faults path chunks). intros Hrest.
    apply (IH _ _ (text +:+ s)) in Hrest;
      [| cbn [set_file files]; now rewrite lookup_insert_eq].
    rewrite Hrest. unfold set_file. cbn [files denied stdout].
    now rewrite insert_insert_eq, append_assoc.
Qed.

End Files.

(** Without faults every write succeeds. *)
Lemma writes_no_faults (path : string) (chunks : list string) :
  forall (w : World) (text : string),
  files w !! path = Some text ->
  block (writes no_faults path chunks) w =
  (Ok tt, set_file path (text +:+ fold_right String.append EmptyString chunks) w).
Proof.
  induction chunks as [| s chunks IH]; intros w text Htext; cbn [writes map block fold_right].
  - unfold set_file. rewrite append_empty_r, insert_id by exact Htext. now destruct w.
  - unfold file_op at 1. cbv zeta. rewrite Htext.
    change (default EmptyString (Some text)) with text. cbn [no_faults].
    fold (writes no_faults path chunks).
    rewrite (IH _ (text +:+ s)) by (cbn [set_file files]; now rewrite lookup_insert_eq).
    unfold set_file. cbn [files denied stdout].
    now rewrite insert_insert_eq, append_assoc.
Qed.

(** The [with] block is a sequence of writes. *)
Lemma write_obj_writes (faults : Faults) (p q : Z) (m : Mesh) (path : string) (w : World) :
  write_obj faults p q m path w = block (writes faults path (obj_writes p q m)) w.
Proof.
  unfold write_obj, obj_writes, for_io, writes. cbv zeta.
  rewrite !map_app, !map_map. cbn [map app block].
  do 3 (match goal with
        | |- context [file_op ?f ?x ?o ?w0] =>
          destruct (file_op f x o w0) as [[[] | ?] ?]; [| reflexivity]
        end).
  rewrite block_app.
  destruct (block (map _ (vertices m)) _) as [[[] | ?] w3]; [| reflexivity].
  cbn [block].
  destruct (file_op faults path (IoWrite newline) w3) as [[[] | ?] w4]; [| reflexivity].
  rewrite block_app.
  destruct (block (map _ (normals m)) _) as [[[] | ?] w5]; [| reflexivity].
  cbn [block].
  destruct (file_op faults path (IoWrite newline) w5) as [[[] | ?] w6]; [| reflexivity].
  destruct (block (map _ (faces m)) _) as [[[] | ?] w7]; reflexivity.
Qed.


(** ** Runs of the generator *)

Section Runs.

Variable libm : Libm.
Variable faults : Faults.
Variables (p q path_segments tube_segments : Z).
Variables (torus_radius tube_radius : float).
Variable output_file : string.

Local Abbreviation mesh :=
  (build_mesh libm p q path_segments tube_segments torus_radius tube_radius).
Local Abbreviation run :=
  (generate_torus_knot_obj libm faults p q path_segments tube_segments
     torus_radius tube_radius output_file).

(** An exception of the loops leaves the run before the file is opened. *)
Lemma run_mesh_raise (e : exn) (w : World) : mesh = Raise e -> run w = (Raise e, w).
Proof. intros Hm. unfold generate_torus_knot_obj. now rewrite Hm. Qed.

(** A destination that cannot be opened is left as it was. *)
Lemma run_denied (m : Mesh) (w : World) :
  mesh = Ok m -> output_file ∈ denied w -> run w = (Raise OSError, w).
Proof.
  intros Hm Hd. unfold generate_torus_knot_obj, with_open_w, open_w. rewrite Hm.
  now destruct (decide (output_file ∈ denied w)).
Qed.

(** The [with] statement, once the file is open. *)
Lemma with_open_w_opened (m : Mesh) (w : World) :
  output_file ∉ denied w ->
  with_open_w faults output_file (write_obj faults p q m output_file) w =
  let '(r, w1) := block (writes faults output_file (obj_writes p q m))
                    (set_file output_file EmptyString w) in
  let '(c, w2) := file_op faults output_file IoClose w1 in
  (match c with Raise e => Raise e | Ok _ => r end, w2).
Proof.
  intros Hd. unfold with_open_w, open_w.
  destruct (decide (output_file ∈ denied w)); [contradiction |].
  fold (set_file output_file EmptyString w). now rewrite write_obj_writes.
Qed.

(** What a run that returns has done. *)
Lemma run_ok_inv (w w' : World) :
  run w = (Ok tt, w') ->
  exists m : Mesh,
    mesh = Ok m /\ (output_file ∉ denied w) /\
    w' = mkWorld (<[output_file := obj_text p q m]> (files w)) (denied w)
                 (stdout w ++ report output_file m).
Proof.
  unfold generate_torus_knot_obj.
  destruct mesh as [m | e]; [| discriminate]. intros Hrun.
  exists m. split; [reflexivity |].
  destruct (decide (output_file ∈ denied w)) as [Hd | Hd].
  { exfalso. revert Hrun. unfold with_open_w, open_w.
    destruct (decide (output_file ∈ denied w)); [discriminate | contradiction]. }
  split; [exact Hd |]. revert Hrun.
  rewrite with_open_w_opened by exact Hd.
  destruct (block _ _) as [r w1] eqn:Hblock.
  unfold file_op. cbv zeta.
  destruct (faults output_file _ IoClose) as [rest |]; [discriminate |].
  destruct r as [[] | e]; [| discriminate].
  apply (writes_ok _ _ _ _ _ EmptyString) in Hblock;
    [| cbn [set_file files]; now rewrite lookup_insert_eq].
  subst w1. intros [= <-]. unfold print, set_file, report, obj_text.
  cbn [files denied stdout]. rewrite insert_insert_eq, <- !app_assoc. reflexivity.
Qed.

(** Whatever happens, a run changes no other file and no permission, and
    prints nothing unless it returns. *)
Lemma run_frame (w : World) :
  denied (snd (run w)) = denied w /\
  (forall path : string,
     path <> output_file -> files (snd (run w)) !! path = files w !! path) /\
  (forall e : exn, fst (run w) = Raise e -> stdout (snd (run w)) = stdout w).
Proof.
  unfold generate_torus_knot_obj.
  destruct mesh as [m | e]; [| cbn [fst snd]; auto].
  destruct (decide (output_file ∈ denied w)) as [Hd | Hd].
  { unfold with_open_w, open_w.
    destruct (decide (output_file ∈ denied w)); [| contradiction].
    cbn [fst snd]. auto. }
  rewrite with_open_w_opened by exact Hd.
  pose proof (block_touches output_file _ (writes_touch faults output_file (obj_writes p q m))
                (set_file output_file EmptyString w)) as (_ & Hd1 & Ho1 & Hf1).
  destruct (block _ _) as [r w1]. cbn [fst snd] in *.
  pose proof (file_op_touches faults output_file IoClose w1) as (_ & Hd2 & Ho2 & Hf2).
  destruct (file_op faults output_file IoClose w1) as [c w2]. cbn [fst snd] in *.
  assert (denied w2 = denied w) as Hdw by (rewrite Hd2, Hd1; reflexivity).
  assert (stdout w2 = stdout w) as How by (rewrite Ho2, Ho1; reflexivity).
  assert (forall path : string,
            path <> output_file -> files w2 !! path = files w !! path) as Hfw.
  { intros path Hne. rewrite Hf2, Hf1 by exact Hne.
    cbn [set_file files]. now rewrite lookup_insert_ne. }
  destruct c as [[] | e]; [destruct r as [[] | e] |]; cbn [fst snd print files denied stdout];
    repeat split; auto; discriminate.
Qed.

(** The exception of a run is the one of the loops, or an [OSError]. *)
Lemma run_raise_inv (w : World) (e : exn) :
  fst (run w) = Raise e -> mesh = Raise e \/ (e = OSError /\ exists m : Mesh, mesh = Ok m).
Proof.
  unfold generate_torus_knot_obj.
  destruct mesh as [m | e0]; [| cbn [fst]; intros [= <-]; now left].
  intros Hrun. right. split; [| eauto]. revert Hrun.
  destruct (decide (output_file ∈ denied w)) as [Hd | Hd].
  { unfold with_open_w, open_w.
    destruct (decide (output_file ∈ denied w)); [| contradiction].
    cbn [fst]. now intros [= <-]. }
  rewrite with_open_w_opened by exact Hd.
  pose proof (block_touches output_file _ (writes_touch faults output_file (obj_writes p q m))
                (set_file output_file EmptyString w)) as (Hr1 & _).
  destruct (block _ _) as [r w1]. cbn [fst snd] in *.
  pose proof (file_op_touches faults output_file IoClose w1) as (Hr2 & _).
  destruct (file_op faults output_file IoClose w1) as [c w2]. cbn [fst snd] in *.
  destruct c as [[] | e1]; [destruct r as [[] | e1] |]; cbn [fst].
  - discriminate.
  - intros [= <-]. destruct Hr1 as [Hr1 | Hr1]; congruence.
  - intros [= <-]. destruct Hr2 as [Hr2 | Hr2]; congruence.
Qed.

End Runs.

(** Without faults a run whose loops complete and whose destination can be
    opened returns. *)
Lemma run_no_faults (libm : Libm) (p q path_segments tube_segments : Z)
    (torus_radius tube_radius : float) (output_file : string) (m : Mesh) (w : World) :
  build_mesh libm p q path_segments tube_segments torus_radius tube_radius = Ok m ->
  output_file ∉ denied w ->
  generate_torus_knot_obj libm no_faults p q path_segments tube_segments
    torus_radius tube_radius output_file w =
  (Ok tt,
   mkWorld (<[output_file := obj_text p q m]> (files w)) (denied w)
           (stdout w ++ report output_file m)).
Proof.
  intros Hm Hd. unfold generate_torus_knot_obj. rewrite Hm.
  rewrite with_open_w_opened by exact Hd.
  rewrite (writes_no_faults _ _ _ EmptyString)
    by (cbn [set_file files]; now rewrite lookup_insert_eq).
  unfold file_op, no_faults, print, set_file, report, obj_text.
  cbn [files denied stdout]. rewrite insert_insert_eq, <- !app_assoc. reflexivity.
Qed.

(** ** Zeros *)

Lemma is_zero_inv (x : float) :
  is_zero x = true -> exists s : bool, Prim2SF x = S754_zero s.
Proof.
  unfold is_zero. rewrite eqb_spec. change (Prim2SF zero) with (S754_zero false).
  destruct (Prim2SF x) as [s | s | | s m e]; cbn; eauto; try destruct s; discriminate.
Qed.

(** The square of a zero is [0.0]: [float_pow] does not ask the C library. *)
Lemma float_pow2_zero (libm : Libm) (x : float) :
  is_zero x = true -> float_pow2 libm x = Ok zero.
Proof.
  intros Hx. destruct (is_zero_inv x Hx) as [s Hs]. unfold float_pow2.
  assert (is_nan x = false) as ->.
  { unfold is_nan. rewrite eqb_spec, Hs. reflexivity. }
  assert (is_infinity x = false) as ->.
  { unfold is_infinity. rewrite eqb_spec, abs_spec, Hs. reflexivity. }
  now rewrite Hx.
Qed.

Lemma num_pow2_zero (libm : Libm) (a : num) :
  num_is_zero a = true ->
  num_pow2 libm a = Ok (Int 0) \/ num_pow2 libm a = Ok (Float zero).
Proof.
  destruct a as [z | f]; cbn [num_is_zero num_pow2].
  - intros ->%Z.eqb_eq. now left.
  - intros Hf. rewrite float_pow2_zero by exact Hf. now right.
Qed.

Lemma float_length_zero (libm : Libm) (d : fvec) :
  is_zero (item0 d) = true -> is_zero (item1 d) = true -> is_zero (item2 d) = true ->
  float_length libm d = Ok zero.
Proof.
  intros H0 H1 H2. unfold float_length.
  rewrite !float_pow2_zero by assumption. reflexivity.
Qed.

Lemma num_length_zero (libm : Libm) (v : vec) :
  num_is_zero (item0 v) = true -> num_is_zero (item1 v) = true ->
  num_is_zero (item2 v) = true ->
  num_length libm v = Ok zero.
Proof.
  intros H0 H1 H2. unfold num_length.
  destruct (num_pow2_zero libm _ H0) as [-> | ->],
           (num_pow2_zero libm _ H1) as [-> | ->],
           (num_pow2_zero libm _ H2) as [-> | ->]; reflexivity.
Qed.


(** * The claims on binary64 *)

(** C2.  For every valid configuration the loops either stop with an
    [OverflowError] or a [ValueError] of the float arithmetic, or build a mesh
    with exactly [(path_segments+1) * (tube_segments+1)] vertices, as many
    normals, and exactly [path_segments * tube_segments] faces. *)
Theorem mesh_counts (libm : Libm) (p q path_segments tube_segments : Z)
    (torus_radius tube_radius : float) :
  valid_configuration p q path_segments tube_segments ->
  (exists e : exn,
     build_mesh libm p q path_segments tube_segments torus_radius tube_radius = Raise e /\
     (e = OverflowError \/ e = ValueError)) \/
  (exists m : Mesh,
     build_mesh libm p q path_segments tube_segments torus_radius tube_radius = Ok m /\
     Z.of_nat (length (vertices m)) = ((path_segments + 1) * (tube_segments + 1))%Z /\
     Z.of_nat (length (normals m)) = ((path_segments + 1) * (tube_segments + 1))%Z /\
     Z.of_nat (length (faces m)) = (path_segments * tube_segments)%Z).
Proof.
  intros (_ & _ & Hp & Ht).
  pose proof (build_mesh_positive libm p q path_segments tube_segments
                torus_radius tube_radius ltac:(lia) ltac:(lia)) as Hm.
  destruct (build_mesh _ _ _ _ _ _ _) as [m | e].
  - right. exists m. destruct Hm as (Hv & Hn & Hf).
    rewrite Hv, Hn, Hf, length_grid. repeat split; nia.
  - left. now exists e.
Qed.

Lemma mesh_counts_witness :
  valid_configuration 3 2 4 4 /\
  exists m : Mesh,
    build_mesh libm_ref 3 2 4 4 1 0.3 = Ok m /\
    Z.of_nat (length (vertices m)) = 25%Z /\
    Z.of_nat (length (normals m)) = 25%Z /\
    Z.of_nat (length (faces m)) = 16%Z.
Proof.
  assert (valid_configuration 3 2 4 4) as Hvalid by (unfold valid_configuration; lia).
  split; [exact Hvalid |].
  destruct (mesh_counts libm_ref 3 2 4 4 1 0.3 Hvalid) as [(e & He & _) | Hm].
  - exfalso. vm_compute in He. discriminate.
  - exact Hm.
Defined.

(** C2, as stated, fails: at a valid configuration with a large
    [torus_radius] the square of a derivative overflows in the first ring, and
    no vertex is stored. *)
Lemma valid_configuration_overflows :
  valid_configuration 3 2 4 4 /\
  build_mesh libm_ref 3 2 4 4 1e200 0.3 = Raise OverflowError /\
  ring_body libm_ref 3 2 4 4 1e200 0.3 0 ([], []) = Raise OverflowError.
Proof.
  split; [unfold valid_configuration; lia |]. split; vm_compute; reflexivity.
Qed.


(** ** Rejected configurations *)

(** C1, as the code has it.  The generator validates nothing and has no
    error of its own.  What stops a run before any output is an exception of
    its loops: [ZeroDivisionError] at the first division when
    [path_segments = 0]; with [path_segments >= 1] and [tube_segments = 0], the
    [ZeroDivisionError] of the first vertex unless the float arithmetic of the
    first ring has raised before it.  Whatever the loops raise ends the run
    with the world unchanged, and a run that ends with anything but an
    [OSError] has left the world unchanged. *)
Theorem generation_fails_on_zero_segments (libm : Libm) (faults : Faults)
    (p q path_segments tube_segments : Z) (torus_radius tube_radius : float)
    (output_file : string) (w : World) :
  let run := generate_torus_knot_obj libm faults p q path_segments tube_segments
               torus_radius tube_radius output_file w in
  (path_segments = 0%Z -> run = (Raise ZeroDivisionError, w)) /\
  ((0 < path_segments)%Z -> tube_segments = 0%Z ->
   exists e : exn,
     run = (Raise e, w) /\
     (e = ZeroDivisionError \/ e = OverflowError \/ e = ValueError)) /\
  (forall e : exn,
     build_mesh libm p q path_segments tube_segments torus_radius tube_radius = Raise e ->
     run = (Raise e, w)) /\
  (forall e : exn, fst run = Raise e -> e <> OSError -> snd run = w).
Proof.
  intros run. subst run. split; [| split; [| split]].
  - intros Hp. apply run_mesh_raise. now apply build_mesh_zero_path.
  - intros Hp Ht.
    destruct (build_mesh_zero_tube libm p q path_segments tube_segments
                torus_radius tube_radius Hp Ht) as (e & He & Hkind).
    exists e. split; [now apply run_mesh_raise |].
    destruct Hkind as [-> | [-> | ->]]; auto.
  - intros e He. now apply run_mesh_raise.
  - intros e He Hne.
    destruct (run_raise_inv _ _ _ _ _ _ _ _ _ _ _ He) as [Hm | [-> _]];
      [| contradiction].
    now rewrite (run_mesh_raise _ _ _ _ _ _ _ _ _ _ _ Hm).
Qed.

Lemma generation_fails_on_zero_segments_witness :
  generate_torus_knot_obj libm_ref no_faults 3 2 0 4 1 0.3 "torus-knot.obj" sample_world =
    (Raise ZeroDivisionError, sample_world) /\
  ((0 < 4)%Z /\
   exists e : exn,
     generate_torus_knot_obj libm_ref no_faults 3 2 4 0 1 0.3 "torus-knot.obj" sample_world =
       (Raise e, sample_world)).
Proof.
  split.
  - apply (generation_fails_on_zero_segments libm_ref no_faults 3 2 0 4 1 0.3). reflexivity.
  - split; [lia |].
    destruct (proj1 (proj2 (generation_fails_on_zero_segments libm_ref no_faults 3 2 4 0 1 0.3
                              "torus-knot.obj" sample_world)))
      as (e & He & _); [lia | reflexivity |].
    now exists e.
Defined.

(** C1, as stated, fails: a configuration with [p < 1], [q < 1],
    [path_segments < 3] and [tube_segments < 3] is not rejected; its mesh of
    four vertices and one face is built, written and reported. *)
Lemma invalid_configuration_accepted :
  ((0 < 1)%Z /\ (1 < 3)%Z /\ ~ valid_configuration 0 0 1 1) /\
  exists m : Mesh,
    build_mesh libm_ref 0 0 1 1 1 0.3 = Ok m /\
    length (vertices m) = 4%nat /\ length (normals m) = 4%nat /\
    faces m = [(1, 2, 4, 3)%Z] /\
    generate_torus_knot_obj libm_ref no_faults 0 0 1 1 1 0.3 "torus-knot.obj" sample_world =
      (Ok tt,
       mkWorld {["torus-knot.obj" := obj_text 0 0 m]} ∅
         ["Generated torus-knot.obj"; "  Vertices: 4"; "  Normals: 4"; "  Faces: 1"]).
Proof.
  split; [split; [lia | split; [lia | unfold valid_configuration; lia]] |].
  assert (exists m : Mesh,
            build_mesh libm_ref 0 0 1 1 1 0.3 = Ok m /\
            length (vertices m) = 4%nat /\ length (normals m) = 4%nat /\
            faces m = [(1, 2, 4, 3)%Z]) as (m & Hm & Hv & Hn & Hf).
  { eexists. split; [vm_compute; reflexivity |]. repeat split; reflexivity. }
  exists m. split; [exact Hm |]. split; [exact Hv |]. split; [exact Hn |].
  split; [exact Hf |].
  rewrite (run_no_faults _ _ _ _ _ _ _ _ m _ Hm) by apply not_elem_of_empty.
  unfold report. rewrite Hv, Hn, Hf. cbn [files denied stdout sample_world app].
  now rewrite insert_empty.
Qed.

(** ** Degenerate tangents *)

(** C7, as the code has it.  [calculate_tangent] never divides by zero: it
    raises only an [OverflowError] or a [ValueError] of the float arithmetic.
    With the derivative [d] and its length [l] as the code computes them, it
    returns [(1, 0, 0)] exactly when [l > 0] fails, and [d / l] otherwise; an
    exception of either computation is the exception of the call; and when the
    three computed derivatives are zero the result is [(1, 0, 0)]. *)
Theorem tangent_fallback (libm : Libm) (p q : Z) (torus_radius tube_radius t : float) :
  let tangent := calculate_tangent libm p q torus_radius tube_radius t in
  (forall e : exn, tangent = Raise e -> e = OverflowError \/ e = ValueError) /\
  (forall (d : fvec) (l : float),
     derivative libm p q torus_radius tube_radius t = Ok d ->
     float_length libm d = Ok l ->
     tangent =
     if num_lt (Int 0) (Float l)
     then Ok (Float (item0 d / l), Float (item1 d / l), Float (item2 d / l))
     else Ok (Int 1, Int 0, Int 0)) /\
  (forall e : exn,
     derivative libm p q torus_radius tube_radius t = Raise e -> tangent = Raise e) /\
  (forall (d : fvec) (e : exn),
     derivative libm p q torus_radius tube_radius t = Ok d ->
     float_length libm d = Raise e -> tangent = Raise e) /\
  (forall d : fvec,
     derivative libm p q torus_radius tube_radius t = Ok d ->
     is_zero (item0 d) = true -> is_zero (item1 d) = true -> is_zero (item2 d) = true ->
     tangent = Ok (Int 1, Int 0, Int 0)).
Proof.
  intros tangent. subst tangent. split; [| split; [| split; [| split]]].
  - intros e He. exact (calculate_tangent_numeric _ _ _ _ _ _ _ He).
  - intros d l Hd Hl. unfold calculate_tangent. rewrite Hd. cbn [bind].
    rewrite Hl. cbn [bind].
    destruct (num_lt (Int 0) (Float l)) eqn:Hpos; [| reflexivity].
    now rewrite !float_truediv_positive by exact Hpos.
  - intros e Hd. unfold calculate_tangent. now rewrite Hd.
  - intros d e Hd Hl. unfold calculate_tangent. rewrite Hd. cbn [bind]. now rewrite Hl.
  - intros d Hd H0 H1 H2. unfold calculate_tangent. rewrite Hd. cbn [bind].
    rewrite float_length_zero by assumption. reflexivity.
Qed.

Lemma tangent_fallback_witness :
  calculate_tangent libm_ref 0 0 1 0.3 0 = Ok (Int 1, Int 0, Int 0) /\
  exists (d : fvec) (l : float),
    derivative libm_ref 3 2 1 0.3 0 = Ok d /\
    float_length libm_ref d = Ok l /\
    num_lt (Int 0) (Float l) = true /\
    calculate_tangent libm_ref 3 2 1 0.3 0 =
      Ok (Float (item0 d / l), Float (item1 d / l), Float (item2 d / l)).
Proof.
  split.
  - eapply (proj2 (proj2 (proj2 (proj2 (tangent_fallback libm_ref 0 0 1 0.3 0))))).
    + vm_compute. reflexivity.
    + reflexivity.
    + reflexivity.
    + reflexivity.
  - assert (exists d : fvec, derivative libm_ref 3 2 1 0.3 0 = Ok d) as [d Hd]
      by (eexists; vm_compute; reflexivity).
    assert (exists l : float, float_length libm_ref d = Ok l /\
                              num_lt (Int 0) (Float l) = true) as (l & Hl & Hpos).
    { vm_compute in Hd. injection Hd as <-. eexists.
      split; [vm_compute; reflexivity | reflexivity]. }
    exists d, l. split; [exact Hd |]. split; [exact Hl |]. split; [exact Hpos |].
    rewrite (proj1 (proj2 (tangent_fallback libm_ref 3 2 1 0.3 0)) d l Hd Hl).
    now rewrite Hpos.
Defined.

(** C7, as stated, fails.  With both radii at [1e-200] the derivative at
    [t = 0] is not zero, but its squares underflow to zero and the fallback
    [(1, 0, 0)] is returned; with [torus_radius = 1e200] a square overflows
    and the call raises. *)
Lemma nonzero_derivative_falls_back :
  (exists d : fvec,
     derivative libm_ref 3 2 1e-200 1e-200 0 = Ok d /\
     is_zero (item1 d) = false /\ is_zero (item2 d) = false /\
     float_length libm_ref d = Ok zero /\
     calculate_tangent libm_ref 3 2 1e-200 1e-200 0 = Ok (Int 1, Int 0, Int 0)) /\
  calculate_tangent libm_ref 3 2 1e200 0.3 0 = Raise OverflowError.
Proof.
  split.
  - eexists. split; [vm_compute; reflexivity |].
    repeat split; vm_compute; reflexivity.
  - vm_compute. reflexivity.
Qed.

(** ** Zero-length vectors *)





(** ** Frames *)

(** C6 fails in the code.  At the valid configuration [p = 2], [q = 3],
    [torus_radius = -5.24e-163], [tube_radius = 2.62e-163] the squares of the
    derivative at the first sample fall into the subnormal range, the
    computed tangent [(-0.0, 0.0, 0.707...)] is not a unit vector, the
    reference [up = (0, 0, 1)] is chosen although the curve runs along the
    z axis there, both cross products vanish and both normals are the
    fallback [(0, 0, 1)]: [normal1] and [normal2] are equal, not
    perpendicular. *)
Theorem frame_degenerate_at_tiny_radii :
  valid_configuration 2 3 4 4 /\
  int_truediv 0 4 = Ok 0 /\
  (exists z : float,
     calculate_tangent libm_ref 2 3 (-5.24e-163) 2.62e-163 (0 * 2 * math_pi) =
       Ok (Float (-0), Float 0, Float z) /\
     (0.7 <? z) = true /\ (z <? 0.71) = true /\
     num_lt (num_abs (Float z)) (Float 0.9) = true /\
     cross_product (Float (-0), Float 0, Float z) (Int 0, Int 0, Int 1) =
       Ok (Float 0, Float 0, Float (-0)) /\
     frame libm_ref (Float (-0), Float 0, Float z) =
       Ok ((Int 0, Int 0, Int 1), (Int 0, Int 0, Int 1))).
Proof.
  split; [unfold valid_configuration; lia |]. split; [reflexivity |].
  eexists. split; [vm_compute; reflexivity |].
  repeat split; vm_compute; reflexivity.
Qed.

(** ** Determinism *)

(** C9.  Two runs of the generator with the same configuration and the same
    C library, whatever their destinations and whatever the files, the
    console and the faults of the worlds they run in: if both return, both
    have left the same bytes in their destinations, the text of the one mesh
    of the configuration; if the loops raise, both runs end with that
    exception and change nothing; and a run repeated without faults in the
    world a completed run has left completes and leaves every file as it
    was. *)
Theorem generation_deterministic (libm : Libm) (faults1 faults2 : Faults)
    (p q path_segments tube_segments : Z) (torus_radius tube_radius : float)
    (output1 output2 : string) (w1 w2 : World) :
  let mesh := build_mesh libm p q path_segments tube_segments torus_radius tube_radius in
  let run1 := generate_torus_knot_obj libm faults1 p q path_segments tube_segments
                torus_radius tube_radius output1 w1 in
  let run2 := generate_torus_knot_obj libm faults2 p q path_segments tube_segments
                torus_radius tube_radius output2 w2 in
  (fst run1 = Ok tt -> fst run2 = Ok tt ->
   exists m : Mesh,
     mesh = Ok m /\
     files (snd run1) !! output1 = Some (obj_text p q m) /\
     files (snd run2) !! output2 = Some (obj_text p q m) /\
     stdout (snd run1) = stdout w1 ++ report output1 m /\
     stdout (snd run2) = stdout w2 ++ report output2 m) /\
  (forall e : exn, mesh = Raise e -> run1 = (Raise e, w1) /\ run2 = (Raise e, w2)) /\
  (fst run1 = Ok tt ->
   exists w' : World,
     generate_torus_knot_obj libm no_faults p q path_segments tube_segments
       torus_radius tube_radius output1 (snd run1) = (Ok tt, w') /\
     files w' = files (snd run1)).
Proof.
  intros mesh run1 run2. subst mesh run1 run2. split; [| split].
  - intros H1 H2.
    destruct (generate_torus_knot_obj libm faults1 _ _ _ _ _ _ _ w1) as [r1 w1'] eqn:Hrun1.
    destruct (generate_torus_knot_obj libm faults2 _ _ _ _ _ _ _ w2) as [r2 w2'] eqn:Hrun2.
    cbn [fst snd] in *. subst r1 r2.
    apply run_ok_inv in Hrun1 as (m & Hm & _ & ->).
    apply run_ok_inv in Hrun2 as (m' & Hm' & _ & ->).
    assert (m' = m) as -> by congruence.
    exists m. cbn [files stdout]. rewrite !lookup_insert_eq. auto.
  - intros e He. split; now apply run_mesh_raise.
  - intros H1.
    destruct (generate_torus_knot_obj libm faults1 _ _ _ _ _ _ _ w1) as [r1 w1'] eqn:Hrun1.
    cbn [fst snd] in *. subst r1.
    apply run_ok_inv in Hrun1 as (m & Hm & Hd & ->).
    eexists. split; [apply (run_no_faults _ _ _ _ _ _ _ _ m); assumption |].
    cbn [files]. now rewrite insert_insert_eq.
Qed.

Lemma generation_deterministic_witness :
  valid_configuration 3 2 4 4 /\
  exists m : Mesh,
    build_mesh libm_ref 3 2 4 4 1 0.3 = Ok m /\
    files (snd (generate_torus_knot_obj libm_ref no_faults 3 2 4 4 1 0.3
                  "copy.obj" sample_world)) !! "copy.obj" =
      Some (obj_text 3 2 m) /\
    files (snd (generate_torus_knot_obj libm_ref no_faults 3 2 4 4 1 0.3
                  "torus-knot.obj" stale_world)) !! "torus-knot.obj" =
      Some (obj_text 3 2 m).
Proof.
  split; [unfold valid_configuration; lia |].
  assert (exists m : Mesh, build_mesh libm_ref 3 2 4 4 1 0.3 = Ok m) as [m0 Hm0]
    by (eexists; vm_compute; reflexivity).
  destruct (proj1 (generation_deterministic libm_ref no_faults no_faults 3 2 4 4 1 0.3
                     "copy.obj" "torus-knot.obj" sample_world stale_world))
    as (m & Hm & Hf1 & Hf2 & _).
  - erewrite run_no_faults; [reflexivity | exact Hm0 | apply not_elem_of_empty].
  - erewrite run_no_faults; [reflexivity | exact Hm0 | apply not_elem_of_empty].
  - exists m. auto.
Defined.

(** * Further properties on binary64 *)

(** ** Effects of a run *)

(** X12.  A run that returns has built the mesh, opened the destination,
    replaced its content by the text of the mesh, changed no other file and
    no permission and printed the four lines of the report.  A run that
    raises has printed nothing and has changed no other file and no
    permission.  Without faults, a run whose loops complete and whose
    destination can be opened returns. *)
Theorem run_effects (libm : Libm) (faults : Faults) (p q path_segments tube_segments : Z)
    (torus_radius tube_radius : float) (output_file : string) (w : World) :
  let mesh := build_mesh libm p q path_segments tube_segments torus_radius tube_radius in
  let run := generate_torus_knot_obj libm faults p q path_segments tube_segments
               torus_radius tube_radius output_file w in
  (fst run = Ok tt ->
   exists m : Mesh,
     mesh = Ok m /\ (output_file ∉ denied w) /\
     files (snd run) = <[output_file := obj_text p q m]> (files w) /\
     denied (snd run) = denied w /\
     stdout (snd run) = stdout w ++ report output_file m) /\
  (forall e : exn,
     fst run = Raise e ->
     stdout (snd run) = stdout w /\ denied (snd run) = denied w /\
     forall path : string,
       path <> output_file -> files (snd run) !! path = files w !! path) /\
  (forall m : Mesh,
     mesh = Ok m -> output_file ∉ denied w ->
     generate_torus_knot_obj libm no_faults p q path_segments tube_segments
       torus_radius tube_radius output_file w =
     (Ok tt,
      mkWorld (<[output_file := obj_text p q m]> (files w)) (denied w)
              (stdout w ++ report output_file m))).
Proof.
  intros mesh run. subst mesh run. split; [| split].
  - intros Hrun.
    destruct (generate_torus_knot_obj libm faults _ _ _ _ _ _ _ w) as [r w'] eqn:Hw.
    cbn [fst snd] in *. subst r.
    apply run_ok_inv in Hw as (m & Hm & Hd & ->). exists m. auto.
  - intros e He.
    destruct (run_frame libm faults p q path_segments tube_segments torus_radius
                tube_radius output_file w) as (Hd & Hf & Ho).
    split; [now apply (Ho e) |]. auto.
  - intros m Hm Hd. now apply run_no_faults.
Qed.

Lemma run_effects_witness :
  exists m : Mesh,
    build_mesh libm_ref 3 2 4 4 1 0.3 = Ok m /\
    generate_torus_knot_obj libm_ref no_faults 3 2 4 4 1 0.3 "torus-knot.obj" stale_world =
    (Ok tt,
     mkWorld {["torus-knot.obj" := obj_text 3 2 m]} ∅
       ["earlier line"; "Generated torus-knot.obj"; "  Vertices: 25"; "  Normals: 25";
        "  Faces: 16"]).
Proof.
  assert (exists m : Mesh, build_mesh libm_ref 3 2 4 4 1 0.3 = Ok m) as [m Hm]
    by (eexists; vm_compute; reflexivity).
  exists m. split; [exact Hm |].
  rewrite (proj2 (proj2 (run_effects libm_ref no_faults 3 2 4 4 1 0.3 "torus-knot.obj"
                           stale_world)) m Hm)
    by apply not_elem_of_empty.
  assert (length (vertices m) = 25%nat /\ length (normals m) = 25%nat /\
          length (faces m) = 16%nat) as (Hv & Hn & Hf).
  { vm_compute in Hm. injection Hm as <-. repeat split. }
  unfold report. rewrite Hv, Hn, Hf. cbn [stale_world files denied stdout app].
  now rewrite insert_singleton_eq.
Defined.

(** X13.  When the destination cannot be opened the run raises and leaves
    the world as it was: nothing is written, nothing is printed.  The
    exception is the one of the loops if they raise (they run before the file
    is opened), and [OSError] otherwise. *)
Theorem unwritable_destination (libm : Libm) (faults : Faults)
    (p q path_segments tube_segments : Z) (torus_radius tube_radius : float)
    (output_file : string) (w : World) :
  output_file ∈ denied w ->
  exists e : exn,
    generate_torus_knot_obj libm faults p q path_segments tube_segments
      torus_radius tube_radius output_file w = (Raise e, w) /\
    (build_mesh libm p q path_segments tube_segments torus_radius tube_radius = Raise e \/
     (e = OSError /\
      exists m : Mesh,
        build_mesh libm p q path_segments tube_segments torus_radius tube_radius = Ok m)).
Proof.
  intros Hd.
  destruct (build_mesh libm p q path_segments tube_segments torus_radius tube_radius)
    as [m | e] eqn:Hm.
  - exists OSError. split; [now apply (run_denied _ _ _ _ _ _ _ _ _ m) |].
    right. eauto.
  - exists e. split; [now apply run_mesh_raise | now left].
Qed.

Lemma unwritable_destination_witness :
  ("torus-knot.obj" ∈ denied locked_world) /\
  generate_torus_knot_obj libm_ref no_faults 3 2 4 4 1 0.3 "torus-knot.obj" locked_world =
    (Raise OSError, locked_world) /\
  generate_torus_knot_obj libm_ref no_faults 3 2 4 4 1e200 0.3 "torus-knot.obj" locked_world =
    (Raise OverflowError, locked_world).
Proof.
  assert ("torus-knot.obj" ∈ denied locked_world) as Hd
    by (cbn [denied locked_world]; now apply elem_of_singleton).
  split; [exact Hd |]. split.
  - destruct (unwritable_destination libm_ref no_faults 3 2 4 4 1 0.3 _ _ Hd)
      as (e & -> & [He | [-> _]]); [| reflexivity].
    vm_compute in He. discriminate.
  - destruct (unwritable_destination libm_ref no_faults 3 2 4 4 1e200 0.3 _ _ Hd)
      as (e & -> & [He | [_ [m Hm]]]).
    + vm_compute in He. now injection He as <-.
    + vm_compute in Hm. discriminate.
Defined.

(** ** Negative segment counts *)

(** X14.  With a negative [path_segments] neither loop nest runs: whatever
    the other parameters, the mesh is empty and nothing raises; when the
    destination can be opened and no write fails, the file holds the three
    comment lines, with the counts [0] and [0], and three empty lines. *)
Theorem negative_segments_empty_mesh (libm : Libm) (p q path_segments tube_segments : Z)
    (torus_radius tube_radius : float) (output_file : string) (w : World) :
  (path_segments < 0)%Z ->
  build_mesh libm p q path_segments tube_segments torus_radius tube_radius =
    Ok (mkMesh [] [] []) /\
  (output_file ∉ denied w ->
   generate_torus_knot_obj libm no_faults p q path_segments tube_segments
     torus_radius tube_radius output_file w =
   (Ok tt,
    mkWorld
      (<[output_file :=
           "# Torus Knot (" +:+ pretty p +:+ "," +:+ pretty q +:+ ")" +:+ newline +:+
           "# Generated with correct parametric equations" +:+ newline +:+
           "# Vertices: 0, Faces: 0" +:+ newline +:+ newline +:+ newline +:+ newline]>
         (files w))
      (denied w)
      (stdout w ++ ["Generated " +:+ output_file; "  Vertices: 0"; "  Normals: 0";
                    "  Faces: 0"]))).
Proof.
  intros Hp.
  assert (build_mesh libm p q path_segments tube_segments torus_radius tube_radius =
          Ok (mkMesh [] [] [])) as Hm by now apply build_mesh_negative_path.
  split; [exact Hm |]. intros Hd.
  rewrite (run_no_faults _ _ _ _ _ _ _ _ _ _ Hm Hd).
  unfold obj_text, obj_writes, report. cbn [vertices normals faces map app fold_right length].
  rewrite !append_assoc. reflexivity.
Qed.

Lemma negative_segments_empty_mesh_witness :
  (-1 < 0)%Z /\
  build_mesh libm_ref 3 2 (-1) 4 1e200 0.3 = Ok (mkMesh [] [] []) /\
  files (snd (generate_torus_knot_obj libm_ref no_faults 3 2 (-1) 4 1e200 0.3
                "torus-knot.obj" sample_world)) !! "torus-knot.obj" =
  Some ("# Torus Knot (3,2)" +:+ newline +:+
        "# Generated with correct parametric equations" +:+ newline +:+
        "# Vertices: 0, Faces: 0" +:+ newline +:+ newline +:+ newline +:+ newline).
Proof.
  split; [lia |].
  destruct (negative_segments_empty_mesh libm_ref 3 2 (-1) 4 1e200 0.3
              "torus-knot.obj" sample_world) as [Hm Hrun]; [lia |].
  split; [exact Hm |].
  rewrite Hrun by apply not_elem_of_empty.
  cbn [snd files]. now rewrite lookup_insert_eq.
Defined.


(** ** The mesh of a completed run *)

(** X19.  Whenever the loops complete on positive segment counts, whatever
    the radii and the C library, the mesh has
    [(path_segments+1) * (tube_segments+1)] vertices and as many normals, the
    face of cell [(i, j)] is [quad tube_segments i j] at its place in the
    list, and every index of every face lies in [[1, vertex_count]], the four
    of a face being pairwise distinct. *)
Theorem built_mesh_faces (libm : Libm) (p q path_segments tube_segments : Z)
    (torus_radius tube_radius : float) (m : Mesh) :
  (0 < path_segments)%Z -> (0 < tube_segments)%Z ->
  build_mesh libm p q path_segments tube_segments torus_radius tube_radius = Ok m ->
  Z.of_nat (length (vertices m)) = ((path_segments + 1) * (tube_segments + 1))%Z /\
  Z.of_nat (length (normals m)) = ((path_segments + 1) * (tube_segments + 1))%Z /\
  (forall i j : Z,
     (0 <= i < path_segments)%Z -> (0 <= j < tube_segments)%Z ->
     faces m !! face_index tube_segments i j = Some (quad tube_segments i j)) /\
  (forall a b c d : Z,
     (a, b, c, d) ∈ faces m ->
     let vertex_count := Z.of_nat (length (vertices m)) in
     (1 <= a <= vertex_count)%Z /\ (1 <= b <= vertex_count)%Z /\
     (1 <= c <= vertex_count)%Z /\ (1 <= d <= vertex_count)%Z /\
     a <> b /\ a <> c /\ a <> d /\ b <> c /\ b <> d /\ c <> d).
Proof.
  intros Hp Ht Hm.
  pose proof (build_mesh_positive libm p q path_segments tube_segments
                torus_radius tube_radius Hp Ht) as Hmesh.
  rewrite Hm in Hmesh. destruct Hmesh as (Hv & Hn & Hf).
  assert (Z.of_nat (length (vertices m)) = ((path_segments + 1) * (tube_segments + 1))%Z)
    as Hcount by (rewrite Hv; nia).
  split; [exact Hcount |]. split; [rewrite Hn; nia |]. split.
  - intros i j Hi Hj. rewrite Hf. unfold face_index. now apply lookup_grid.
  - intros a b c d Hface. cbv zeta. rewrite Hcount. rewrite Hf in Hface.
    apply elem_of_grid in Hface as (i & j & Hi & Hj & Hq).
    unfold quad in Hq. cbv zeta in Hq. injection Hq as -> -> -> ->.
    repeat split; nia.
Qed.

Lemma built_mesh_faces_witness :
  exists m : Mesh,
    build_mesh libm_ref 3 2 4 4 1 0.3 = Ok m /\
    Z.of_nat (length (vertices m)) = 25%Z /\
    faces m !! 15%nat = Some (19, 20, 25, 24)%Z.
Proof.
  assert (exists m : Mesh, build_mesh libm_ref 3 2 4 4 1 0.3 = Ok m) as [m Hm]
    by (eexists; vm_compute; reflexivity).
  exists m. split; [exact Hm |].
  destruct (built_mesh_faces libm_ref 3 2 4 4 1 0.3 m ltac:(lia) ltac:(lia) Hm)
    as (Hv & _ & Hf & _).
  split; [exact Hv |]. apply (Hf 3%Z 3%Z); lia.
Defined.

(** ** The seam in binary64 *)

(** X20.  The first and the last vertex of a ring are computed at the angles
    [0.0] and [2 * math.pi], whose sines differ in binary64; the two vertices
    differ by [tube_radius] times that difference.  At the valid
    configuration [(3, 2, 4, 4)] with [tube_radius = 1e7] the two vertices
    of ring 0 differ by more than [1e-9] in [y] and in [z]. *)
Theorem seam_gap_at_large_radius :
  valid_configuration 3 2 4 4 /\
  exists (m : Mesh) (v0 v4 : fvec),
    build_mesh libm_ref 3 2 4 4 1 1e7 = Ok m /\
    vertices m !! vertex_index 4 0 0 = Some v0 /\
    vertices m !! vertex_index 4 0 4 = Some v4 /\
    item0 v0 = item0 v4 /\
    (1e-9 <? abs (item1 v0 - item1 v4)) = true /\
    (2e-9 <? abs (item2 v0 - item2 v4)) = true.
Proof.
  split; [unfold valid_configuration; lia |].
  eexists. eexists. eexists.
  split; [vm_compute; reflexivity |].
  split; [vm_compute; reflexivity |].
  split; [vm_compute; reflexivity |].
  repeat split; vm_compute; reflexivity.
Qed.

(** ** The first sample *)

(** X22.  With the default radii [1.0] and [0.3] the first path sample, at
    the parameter [0.0] of ring 0, is the position [(1.6, 0.0, 0.0)], bit for
    bit; the first vertex of the mesh lies at the distance [tube_radius] from
    it along the first normal, at [(1.9, 0.0, 0.0)]. *)
Theorem first_sample_position :
  int_truediv 0 4 = Ok 0 /\
  calculate_position libm_ref 3 2 1 0.3 (0 * 2 * math_pi) = Ok (1.6, 0, 0) /\
  exists m : Mesh,
    build_mesh libm_ref 3 2 4 4 1 0.3 = Ok m /\
    normals m !! 0%nat = Some (1, 0, -0) /\
    vertices m !! 0%nat = Some (1.6 + 0.3 * 1, 0, 0).
Proof.
  split; [reflexivity |]. split; [vm_compute; reflexivity |].
  eexists. split; [vm_compute; reflexivity |]. split; vm_compute; reflexivity.
Qed.

(** ** The text of a file *)

(** X21.  The text of the file for [p = q = 1] and one segment in each
    direction is [sample_text]: the three comment lines, an empty line, four
    [v] lines, an empty line, four [vn] lines, an empty line and one [f]
    line.  Coordinates are written with six decimals and keep their sign when
    they round to zero: [0.000000] and [-0.000000] both occur. *)
Theorem sample_file_text :
  generate_torus_knot_obj libm_ref no_faults 1 1 1 1 1 0.3 "torus-knot.obj" sample_world =
  (Ok tt,
   mkWorld {["torus-knot.obj" := sample_text]} ∅
     ["Generated torus-knot.obj"; "  Vertices: 4"; "  Normals: 4"; "  Faces: 1"]).
Proof.
  assert (exists m : Mesh,
            build_mesh libm_ref 1 1 1 1 1 0.3 = Ok m /\
            obj_text 1 1 m = sample_text /\
            report "torus-knot.obj" m =
              ["Generated torus-knot.obj"; "  Vertices: 4"; "  Normals: 4"; "  Faces: 1"])
    as (m & Hm & Htext & Hreport).
  { eexists. split; [vm_compute; reflexivity |]. split; vm_compute; reflexivity. }
  rewrite (run_no_faults _ _ _ _ _ _ _ _ m _ Hm) by apply not_elem_of_empty.
  rewrite Htext, Hreport. cbn [files denied stdout sample_world app].
  now rewrite insert_empty.
Qed.

End Binary64Facts.

(** * The two embeddings *)

Section Embeddings.

Import Floats.
Set Warnings "-inexact-float".

(** X23.  The faces do not depend on the arithmetic of the coordinates:
    whenever the loops complete in binary64 on positive segment counts, the
    mesh has the faces, in the same order, and the numbers of vertices and
    of normals of the mesh of exact real arithmetic for the same segment
    counts.  What is proved of the faces and of the indices of the one holds
    of the other. *)
Theorem faces_as_in_exact_arithmetic (libm : Binary64.Libm)
    (p q path_segments tube_segments : Z) (torus_radius tube_radius : float)
    (exact_torus_radius exact_tube_radius : R) (m : Binary64.Mesh) :
  (0 < path_segments)%Z -> (0 < tube_segments)%Z ->
  Binary64.build_mesh libm p q path_segments tube_segments torus_radius tube_radius = Ok m ->
  exists m' : Mesh,
    build_mesh p q path_segments tube_segments exact_torus_radius exact_tube_radius = Ok m' /\
    Binary64.faces m = faces m' /\
    length (Binary64.vertices m) = length (vertices m') /\
    length (Binary64.normals m) = length (normals m').
Proof.
  intros Hp Ht Hm.
  pose proof (Binary64Facts.build_mesh_positive libm p q path_segments tube_segments
                torus_radius tube_radius Hp Ht) as Hmesh.
  rewrite Hm in Hmesh. destruct Hmesh as (Hv & Hn & Hf).
  eexists. split; [apply build_mesh_ok; lia |].
  cbn [vertices normals faces]. rewrite !length_grid. auto.
Qed.

Lemma faces_as_in_exact_arithmetic_witness :
  exists (m : Binary64.Mesh) (m' : Mesh),
    Binary64.build_mesh Binary64.libm_ref 3 2 4 4 1%float 0.3%float = Ok m /\
    build_mesh 3 2 4 4 1 0.3 = Ok m' /\
    Binary64.faces m = faces m' /\
    length (Binary64.vertices m) = length (vertices m').
Proof.
  assert (exists m : Binary64.Mesh,
            Binary64.build_mesh Binary64.libm_ref 3 2 4 4 1%float 0.3%float = Ok m)
    as [m Hm] by (eexists; vm_compute; reflexivity).
  destruct (faces_as_in_exact_arithmetic Binary64.libm_ref 3 2 4 4 1%float 0.3%float
              1%R 0.3%R m ltac:(lia) ltac:(lia) Hm) as (m' & Hm' & Hf & Hv & _).
  exists m, m'. auto.
Defined.

End Embeddings.
